(** * BESS sizing calculator: the numeric core of [app.py]

    The calculator is a straight-line script: a few helper functions
    (rounding up to four decimals, two ceiling lookups, a cable remark), a
    capacity chain, a loop over a fixed catalog of battery models, a best-fit
    choice and an electrical summary.

    Numbers.  The script computes with Python floats (IEEE 754 binary64).
    The file has two readings of that arithmetic.

    - The exact reading: floats as rationals [Q], products and quotients
      exact, decimal literals taken at their decimal value, [math.ceil] as
      [Qceiling].  It is faithful wherever the code only compares numbers
      with one another or with the entries of [pcs_sizes] and [candidates]
      (which are dyadic, so the comparisons are those of the floats), and
      for control flow, strings and list structure.  It is not faithful for
      the value of a product, a quotient or a difference.

    - The binary64 reading, in [Module Binary64]: floats as [spec_float]
      with precision 53 and maximal exponent 1024, every operation rounded
      to nearest even as the hardware does, decimal literals as the nearest
      double, and the exceptions [ZeroDivisionError], [OverflowError] and
      [ValueError] as outcomes.  It computes what the script computes.

    The electrical summary needs [math.sqrt(3)]; its expression and guard
    are stated over [R]. *)

From Stdlib Require Import ZArith QArith Qround Qminmax Qabs.
From Stdlib Require Import List Sorted String Ascii Bool DecimalString.
From Stdlib Require Import Reals Qreals.
From Stdlib Require Import SpecFloat.
From Stdlib Require Import Lia Psatz.
Import ListNotations.

Local Open Scope Q_scope.

(** * The exact reading *)

(** ** Comparisons and fallible division *)

(** [a < b] on floats, as a boolean. *)
Definition Qltb (a b : Q) : bool := negb (Qle_bool b a).

(** Truthiness of a float: [if x] holds for every non-zero [x]. *)
Definition truthy (x : Q) : bool := negb (Qeq_bool x 0).

(** [a / b] for a divisor that is a variable: [None] stands for
    [ZeroDivisionError]. *)
Definition pydiv (a b : Q) : option Q :=
  if Qeq_bool b 0 then None else Some (a / b).

Definition bind {A B : Type} (m : option A) (k : A -> option B) : option B :=
  match m with
  | Some a => k a
  | None => None
  end.

Notation "x <- m ;; k" := (bind m (fun x => k))
  (at level 61, m at next level, right associativity).

(** ** Utility functions *)

Definition factor : Q := 10_000.

(** [round_up_to_4_dec] in exact arithmetic:
    [math.ceil(x * factor) / factor]. *)
Definition round_up_to_4_dec (x : Q) : Q :=
  inject_Z (Qceiling (x * factor)) / factor.

(** The same function with its [None] guard. *)
Definition round_up_to_4_dec_opt (x : option Q) : option Q :=
  match x with
  | None => None
  | Some v => Some (round_up_to_4_dec v)
  end.

Definition pcs_sizes : list Q := [1.25; 1.50; 1.75; 2.0; 2.5; 5.0].

(** The [for] loop returns at the first size that is [>=] the power; when the
    loop runs out it returns [pcs_sizes[-1]]. *)
Definition select_pcs_rating (container_power_mw : Q) : Q :=
  match find (fun s => Qle_bool container_power_mw s) pcs_sizes with
  | Some s => s
  | None => last pcs_sizes 0
  end.

Definition candidates : list Q := [1.25; 1.5; 1.75; 2.0; 2.5; 3.5; 5.0].

(** ** String formatting *)

(** Decimal digits of a non-negative integer. *)
Definition str_of_Z (n : Z) : string := NilZero.string_of_int (Z.to_int n).

(** Nearest integer, ties to even: the rounding of float formatting. *)
Definition round_half_even (x : Q) : Z :=
  let f := Qfloor x in
  match Qcompare (x - inject_Z f) (1 # 2) with
  | Lt => f
  | Gt => (f + 1)%Z
  | Eq => if Z.even f then f else (f + 1)%Z
  end.

(** The format specification [.2f]: sign, integer part, point, two digits. *)
Definition format_2f (c : Q) : string :=
  let n := round_half_even (Qabs c * 100) in
  ((if Qltb c 0 then "-" else "")
    ++ str_of_Z (n / 100) ++ "."
    ++ str_of_Z (n mod 100 / 10) ++ str_of_Z (n mod 10))%string.

Fixpoint mem_char (a : ascii) (chars : string) : bool :=
  match chars with
  | EmptyString => false
  | String b rest => Ascii.eqb a b || mem_char a rest
  end.

(** [s.rstrip(chars)]: drop the longest suffix made of characters of
    [chars]. *)
Fixpoint rstrip (chars s : string) : string :=
  match s with
  | EmptyString => EmptyString
  | String a rest =>
      match rstrip chars rest with
      | EmptyString => if mem_char a chars then EmptyString else String a EmptyString
      | kept => String a kept
      end
  end.

(** The expression the source returns for a candidate [c]:
    [f"{c:.2f}MVA".rstrip("0").rstrip(".") + "MVA"]. *)
Definition mva_label (c : Q) : string :=
  (rstrip "." (rstrip "0" (format_2f c ++ "MVA")) ++ "MVA")%string.

Definition select_transformer_mva (container_power_mw : Q) : string :=
  match find (fun c => Qle_bool container_power_mw c) candidates with
  | Some c => mva_label c
  | None => mva_label (last candidates 0)
  end.

(** The label as the specification words it: the number printed with two
    decimals, trailing zeros and a trailing point removed, then the suffix. *)
Definition trimmed_mva_label (c : Q) : string :=
  (rstrip "." (rstrip "0" (format_2f c)) ++ "MVA")%string.

(** The ceiling lookup both selectors share, on an arbitrary table. *)
Definition ceiling_lookup (table : list Q) (x : Q) : Q :=
  match find (fun s => Qle_bool x s) table with
  | Some s => s
  | None => last table 0
  end.

(** The cable remark: one 300 mm² run carries 446 A, further runs are added
    as needed.  The number of runs is the ceiling of the exact quotient. *)
Definition limit_per_run : Q := 446.0.

Definition cable_runs_300mm (current_amps : Q) : string :=
  if Qle_bool current_amps 0 then "No current"%string
  else
    let runs := Qceiling (current_amps / limit_per_run) in
    if (runs =? 1)%Z then "Use 300mm² cable, 1 run per phase"%string
    else ("Use 300mm² cable, " ++ str_of_Z runs ++ " runs per phase")%string.

(** ** Inputs of the sidebar *)

Record Inputs := {
  load_mw : Q;
  discharge_h : Q;
  dod_percent : Q;
  rte_percent : Q;
  other_eff_percent : Q;
  c_rate : Q;
  grid_charging_mw : Q;
  other_charging_mw : Q;
  voltage_kv : Q;
  power_factor : Q
}.

(** The ranges the number inputs enforce ([min_value], [max_value]). *)
Definition widget_ranges (i : Inputs) : Prop :=
  0 <= load_mw i /\ 0 <= discharge_h i /\
  (1 <= dod_percent i /\ dod_percent i <= 100) /\
  (1 <= rte_percent i /\ rte_percent i <= 100) /\
  (1 <= other_eff_percent i /\ other_eff_percent i <= 100) /\
  (0.01 <= c_rate i /\ c_rate i <= 1) /\
  0 <= grid_charging_mw i /\ 0 <= other_charging_mw i /\
  0.1 <= voltage_kv i /\
  (0.1 <= power_factor i /\ power_factor i <= 1).

(** What the capacity chain relies on: a non-negative load and duration and
    the three percentages in (0, 100]. *)
Definition chain_ranges (i : Inputs) : Prop :=
  0 <= load_mw i /\ 0 <= discharge_h i /\
  (0 < dod_percent i /\ dod_percent i <= 100) /\
  (0 < rte_percent i /\ rte_percent i <= 100) /\
  (0 < other_eff_percent i /\ other_eff_percent i <= 100).

(** The values the widgets start with. *)
Definition default_inputs : Inputs := {|
  load_mw := 0.99;
  discharge_h := 8;
  dod_percent := 90;
  rte_percent := 88.65;
  other_eff_percent := 100;
  c_rate := 0.25;
  grid_charging_mw := 0.5;
  other_charging_mw := 1;
  voltage_kv := 0.4;
  power_factor := 0.85
|}.

(** ** Step 1: required capacity *)

Record Capacity := {
  initial_mwh : Q;
  after_dod_mwh : Q;
  after_rte_mwh : Q;
  after_other_eff_mwh : Q;
  required_bess_mwh : Q;
  required_discharge_power_mw : Q;
  customer_c_rate : Q
}.

Definition capacity_chain (i : Inputs) : option Capacity :=
  let initial := load_mw i * discharge_h i in
  q1 <- pydiv initial (dod_percent i / 100) ;;
  let after_dod := round_up_to_4_dec q1 in
  q2 <- pydiv after_dod (rte_percent i / 100) ;;
  let after_rte := round_up_to_4_dec q2 in
  q3 <- pydiv after_rte (other_eff_percent i / 100) ;;
  let after_other_eff := round_up_to_4_dec q3 in
  Some {|
    initial_mwh := initial;
    after_dod_mwh := after_dod;
    after_rte_mwh := after_rte;
    after_other_eff_mwh := after_other_eff;
    required_bess_mwh := after_other_eff;
    required_discharge_power_mw := load_mw i;
    customer_c_rate := c_rate i
  |}.

(** ** Battery models and the configuration table *)

Record BatteryModel := {
  name : string;
  capacity_kwh : Q
}.

(** The capacities at their decimal values; the doubles the script holds
    for 3727.36 and 5015.9 differ from them in the last place. *)
Definition battery_models : list BatteryModel := [
  {| name := "261 kWh battery"; capacity_kwh := 261.0 |};
  {| name := "3727.36 kWh battery"; capacity_kwh := 3727.36 |};
  {| name := "5015.9 kWh battery"; capacity_kwh := 5015.9 |}
].

(** One row of the table; the fields are the columns, in order. *)
Record Row := {
  battery_model : string;
  unit_capacity_kwh : Q;
  number_of_units : Z;
  total_installed_mwh : Q;
  oversizing_mwh : Q;
  oversizing_pct : Q;
  container_c_rate : Q;
  pcs_rating_mw : Q;
  pcs_quantity : Z;
  transformer_per_unit : string
}.

(** [math.ceil(required * 1000 / cap_kwh)] when the requirement is positive,
    else [0]; the quotient is the exact one. *)
Definition units_for (required cap_kwh : Q) : option Z :=
  if Qltb 0 required then
    q <- pydiv (required * 1000) cap_kwh ;; Some (Qceiling q)
  else Some 0%Z.

(** [math.ceil(power / rating) if rating > 0 else 0], on the exact
    quotient. *)
Definition pcs_quantity_for (power rating : Q) : Z :=
  if Qltb 0 rating then Qceiling (power / rating) else 0%Z.

(** The body of the loop over the models, with exact products, quotients
    and differences.  [required] is a float in the script, never [None], so
    the oversizing is always a number. *)
Definition compute_row (required power crate : Q) (model : BatteryModel)
  : option Row :=
  let cap_kwh := capacity_kwh model in
  units <- units_for required cap_kwh ;;
  let total_mwh := inject_Z units * cap_kwh / 1000 in
  let oversize_mwh := total_mwh - required in
  let oversize_pct :=
    if truthy required && Qltb 0 required
    then oversize_mwh / required * 100
    else 0 in
  let container_power_mw := crate * cap_kwh / 1000 in
  let rating := select_pcs_rating container_power_mw in
  Some {|
    battery_model := name model;
    unit_capacity_kwh := cap_kwh;
    number_of_units := units;
    total_installed_mwh := total_mwh;
    oversizing_mwh := oversize_mwh;
    oversizing_pct := oversize_pct;
    container_c_rate := crate;
    pcs_rating_mw := rating;
    pcs_quantity := pcs_quantity_for power rating;
    transformer_per_unit := select_transformer_mva container_power_mw
  |}.

Fixpoint compute_rows (required power crate : Q) (models : list BatteryModel)
  : option (list Row) :=
  match models with
  | [] => Some []
  | model :: rest =>
      row <- compute_row required power crate model ;;
      rows <- compute_rows required power crate rest ;;
      Some (row :: rows)
  end.

(** ** Best model by smallest oversizing *)

(** [Series.clip(lower=0)]. *)
Definition clip_lower0 (values : list Q) : list Q :=
  map (fun v => if Qltb v 0 then 0 else v) values.

(** Scan for the position of the first smallest value: the running best is
    replaced only by a strictly smaller one. *)
Fixpoint idxmin_from (best : nat) (best_v : Q) (pos : nat) (values : list Q)
  : nat :=
  match values with
  | [] => best
  | v :: rest =>
      if Qltb v best_v then idxmin_from pos v (S pos) rest
      else idxmin_from best best_v (S pos) rest
  end.

(** [Series.idxmin()] on the default index; it raises on an empty series. *)
Definition idxmin (values : list Q) : option nat :=
  match values with
  | [] => None
  | v :: rest => Some (idxmin_from 0 v 1 rest)
  end.

(** [best_idx]: stays [None] unless the requirement is positive. *)
Definition best_idx (required : Q) (rows : list Row) : option nat :=
  if truthy required && Qltb 0 required
  then idxmin (clip_lower0 (map oversizing_mwh rows))
  else None.

(** The table and the suggestion for one set of inputs. *)
Definition configuration (i : Inputs) : option (Capacity * list Row * option nat) :=
  cap <- capacity_chain i ;;
  rows <- compute_rows (required_bess_mwh cap)
            (required_discharge_power_mw cap) (customer_c_rate cap)
            battery_models ;;
  Some (cap, rows, best_idx (required_bess_mwh cap) rows).

(** The table the script shows for the starting values of the widgets. *)
Definition default_table : list Row :=
  match configuration default_inputs with
  | Some (_, rows, _) => rows
  | None => []
  end.

(** The row behind the suggestion: shown when [best_idx] is not [None] and
    [0 <= best_idx < len(df_bess)]; [iloc] then reads that row. *)
Definition best_row (rows : list Row) (best : option nat) : option Row :=
  match best with
  | Some k => if (k <? List.length rows)%nat then nth_error rows k else None
  | None => None
  end.

(** ** Electrical: main breaker and cable *)

(** The expression and the guard of the line current, over the reals
    because of [math.sqrt(3)]; the inputs enter through [Q2R]. *)
Definition current_amps (power voltage pf : R) : R :=
  if Rlt_dec 0 voltage then
    if Rlt_dec 0 pf
    then (power * 1000000 / (sqrt 3 * voltage * 1000 * pf))%R
    else 0%R
  else 0%R.

Definition breaker_amps (power voltage pf : R) : R :=
  (current_amps power voltage pf * 1.25)%R.

Definition electrical_summary (i : Inputs) : R * R :=
  let power := Q2R (load_mw i) in
  (current_amps power (Q2R (voltage_kv i)) (Q2R (power_factor i)),
   breaker_amps power (Q2R (voltage_kv i)) (Q2R (power_factor i))).

(** ** The spreadsheet function the rounding helper mimics *)

(** [ROUNDUP(x, 4)] of the spreadsheet rounds away from zero: up for a
    positive number, down for a negative one. *)
Definition spreadsheet_roundup4 (x : Q) : Q :=
  if Qltb x 0
  then - (inject_Z (Qceiling (- x * factor)) / factor)
  else inject_Z (Qceiling (x * factor)) / factor.

(** * The binary64 reading *)

Module Binary64.

Local Open Scope Z_scope.

(** A Python float: sign, mantissa and exponent, or a zero, an infinity,
    a NaN. *)
Definition float : Type := spec_float.

Definition prec : Z := 53.
Definition emax : Z := 1024.

(** The operators [*], [/], [-] on two floats that do not raise, and the
    comparisons [<] and [<=]. *)
Definition mul : float -> float -> float := SFmul prec emax.
Definition div : float -> float -> float := SFdiv prec emax.
Definition sub : float -> float -> float := SFsub prec emax.
Definition ltb : float -> float -> bool := SFltb.
Definition leb : float -> float -> bool := SFleb.

(** What an expression yields: a value, or one of the exceptions the
    arithmetic of the script can raise. *)
Inductive outcome (A : Type) : Type :=
| Value (a : A)
| ZeroDivisionError
| OverflowError
| ValueError.

Arguments Value {A} a.
Arguments ZeroDivisionError {A}.
Arguments OverflowError {A}.
Arguments ValueError {A}.

Definition bind {A B : Type} (m : outcome A) (k : A -> outcome B)
  : outcome B :=
  match m with
  | Value a => k a
  | ZeroDivisionError => ZeroDivisionError
  | OverflowError => OverflowError
  | ValueError => ValueError
  end.

Notation "x <-- m ;; k" := (bind m (fun x => k))
  (at level 61, m at next level, right associativity).

(** An integer as an unrounded mantissa with exponent 0. *)
Definition exact_int (n : Z) : float :=
  match n with
  | Z0 => S754_zero false
  | Zpos p => S754_finite false p 0
  | Zneg p => S754_finite true p 0
  end.

(** A conversion or an integer division whose result is too large for a
    float raises [OverflowError]. *)
Definition overflow_checked (f : float) : outcome float :=
  match f with
  | S754_infinity _ => OverflowError
  | _ => Value f
  end.

(** [float(n)]: the nearest double. *)
Definition float_of_int (n : Z) : outcome float :=
  overflow_checked (binary_normalize prec emax n 0 false).

(** [n / d] on two [int]s: the exact quotient, rounded once. *)
Definition int_truediv (n d : Z) : outcome float :=
  if d =? 0 then ZeroDivisionError
  else overflow_checked (div (exact_int n) (exact_int d)).

(** The decimal literal [n / 10^k]: the nearest double. *)
Definition dec (n : Z) (k : Z) : float :=
  div (exact_int n) (exact_int (10 ^ k)).

Definition is_zero (f : float) : bool :=
  match f with
  | S754_zero _ => true
  | _ => false
  end.

(** [a / b] on two floats: [ZeroDivisionError] for a zero divisor of either
    sign. *)
Definition truediv (a b : float) : outcome float :=
  if is_zero b then ZeroDivisionError else Value (div a b).

(** [if x] on a float: false for [0.0] and [-0.0] only. *)
Definition truthy (x : float) : bool := negb (is_zero x).

(** [math.ceil]: an [int]; [OverflowError] on an infinity, [ValueError] on
    a NaN. *)
Definition ceil (x : float) : outcome Z :=
  match x with
  | S754_nan => ValueError
  | S754_infinity _ => OverflowError
  | S754_zero _ => Value 0
  | S754_finite s m e =>
      let n := if s then Zneg m else Zpos m in
      match e with
      | Zneg p => Value (- ((- n) / 2 ^ Zpos p))
      | _ => Value (n * 2 ^ e)
      end
  end.

(** The exact value of a finite float. *)
Definition to_Q (x : float) : Q :=
  match x with
  | S754_finite s m e =>
      let n := if s then Zneg m else Zpos m in
      match e with
      | Zneg p => Qmake n (2 ^ p)
      | _ => inject_Z (n * 2 ^ e)
      end
  | _ => 0%Q
  end.

Definition zero : float := S754_zero false.
Definition hundred : float := dec 100 0.
Definition thousand : float := dec 1000 0.

Definition factor : Z := 10000.

(** [math.ceil(x * factor) / factor], for a float [x]: the product is a
    float, its ceiling an [int], the quotient of the two [int]s a float. *)
Definition round_up_to_4_dec (x : float) : outcome float :=
  f <-- float_of_int factor ;;
  n <-- ceil (mul x f) ;;
  int_truediv n factor.

Definition pcs_sizes : list float :=
  [dec 125 2; dec 150 2; dec 175 2; dec 20 1; dec 25 1; dec 50 1].

Definition select_pcs_rating (container_power_mw : float) : float :=
  match find (fun s => leb container_power_mw s) pcs_sizes with
  | Some s => s
  | None => last pcs_sizes zero
  end.

Definition candidates : list float :=
  [dec 125 2; dec 15 1; dec 175 2; dec 20 1; dec 25 1; dec 35 1; dec 50 1].

(** The text of a candidate is the text of its exact value. *)
Definition select_transformer_mva (container_power_mw : float) : string :=
  match find (fun c => leb container_power_mw c) candidates with
  | Some c => mva_label (to_Q c)
  | None => mva_label (to_Q (last candidates zero))
  end.

Record Inputs := {
  load_mw : float;
  discharge_h : float;
  dod_percent : float;
  rte_percent : float;
  other_eff_percent : float;
  c_rate : float
}.

(** The values the widgets start with. *)
Definition default_inputs : Inputs := {|
  load_mw := dec 99 2;
  discharge_h := dec 8 0;
  dod_percent := dec 90 0;
  rte_percent := dec 8865 2;
  other_eff_percent := dec 100 0;
  c_rate := dec 25 2
|}.

Record Capacity := {
  initial_mwh : float;
  after_dod_mwh : float;
  after_rte_mwh : float;
  after_other_eff_mwh : float;
  required_bess_mwh : float;
  required_discharge_power_mw : float;
  customer_c_rate : float
}.

(** One stage: [round_up_to_4_dec(amount / (percent / 100.0))]. *)
Definition stage (amount percent : float) : outcome float :=
  fraction <-- truediv percent hundred ;;
  q <-- truediv amount fraction ;;
  round_up_to_4_dec q.

Definition capacity_chain (i : Inputs) : outcome Capacity :=
  let initial := mul (load_mw i) (discharge_h i) in
  after_dod <-- stage initial (dod_percent i) ;;
  after_rte <-- stage after_dod (rte_percent i) ;;
  after_other_eff <-- stage after_rte (other_eff_percent i) ;;
  Value {|
    initial_mwh := initial;
    after_dod_mwh := after_dod;
    after_rte_mwh := after_rte;
    after_other_eff_mwh := after_other_eff;
    required_bess_mwh := after_other_eff;
    required_discharge_power_mw := load_mw i;
    customer_c_rate := c_rate i
  |}.

Record BatteryModel := {
  name : string;
  capacity_kwh : float
}.

Definition battery_models : list BatteryModel := [
  {| name := "261 kWh battery"; capacity_kwh := dec 2610 1 |};
  {| name := "3727.36 kWh battery"; capacity_kwh := dec 372736 2 |};
  {| name := "5015.9 kWh battery"; capacity_kwh := dec 50159 1 |}
].

Record Row := {
  battery_model : string;
  unit_capacity_kwh : float;
  number_of_units : Z;
  total_installed_mwh : float;
  oversizing_mwh : float;
  oversizing_pct : float;
  container_c_rate : float;
  pcs_rating_mw : float;
  pcs_quantity : Z;
  transformer_per_unit : string
}.

(** The body of the loop over the models, operation by operation. *)
Definition compute_row (required power crate : float) (model : BatteryModel)
  : outcome Row :=
  let cap_kwh := capacity_kwh model in
  units <--
    (if ltb zero required
     then q <-- truediv (mul required thousand) cap_kwh ;; ceil q
     else Value 0) ;;
  units_f <-- float_of_int units ;;
  total_mwh <-- truediv (mul units_f cap_kwh) thousand ;;
  let oversize_mwh := sub total_mwh required in
  oversize_pct <--
    (if truthy required && ltb zero required
     then q <-- truediv oversize_mwh required ;; Value (mul q hundred)
     else Value zero) ;;
  container_power_mw <-- truediv (mul crate cap_kwh) thousand ;;
  let rating := select_pcs_rating container_power_mw in
  quantity <--
    (if ltb zero rating
     then q <-- truediv power rating ;; ceil q
     else Value 0) ;;
  Value {|
    battery_model := name model;
    unit_capacity_kwh := cap_kwh;
    number_of_units := units;
    total_installed_mwh := total_mwh;
    oversizing_mwh := oversize_mwh;
    oversizing_pct := oversize_pct;
    container_c_rate := crate;
    pcs_rating_mw := rating;
    pcs_quantity := quantity;
    transformer_per_unit := select_transformer_mva container_power_mw
  |}.

Fixpoint compute_rows (required power crate : float)
         (models : list BatteryModel) : outcome (list Row) :=
  match models with
  | [] => Value []
  | model :: rest =>
      row <-- compute_row required power crate model ;;
      rows <-- compute_rows required power crate rest ;;
      Value (row :: rows)
  end.

(** The capacity values and the table for one set of inputs. *)
Definition configuration (i : Inputs) : outcome (Capacity * list Row) :=
  cap <-- capacity_chain i ;;
  rows <-- compute_rows (required_bess_mwh cap)
             (required_discharge_power_mw cap) (customer_c_rate cap)
             battery_models ;;
  Value (cap, rows).

(** The starting values with another load and duration. *)
Definition site (load hours : float) : Inputs := {|
  load_mw := load;
  discharge_h := hours;
  dod_percent := dod_percent default_inputs;
  rte_percent := rte_percent default_inputs;
  other_eff_percent := other_eff_percent default_inputs;
  c_rate := c_rate default_inputs
|}.

End Binary64.

(** * Properties of the exact reading

    The statements of this part are about the definitions over [Q].  Those
    that rest on comparisons, control flow, strings and list structure only
    are statements about the script.  Those that rest on the value of a
    product, a quotient or a difference hold in exact arithmetic and are
    introduced by the words "in exact arithmetic"; what the script does
    with the same inputs in binary64 is in the last part of the file. *)

(** ** Comparisons *)

Lemma Qltb_lt (a b : Q) : Qltb a b = true <-> a < b.
Proof.
  unfold Qltb. rewrite negb_true_iff. split; intro H.
  - apply Qnot_le_lt. intro Hle. apply Qle_bool_iff in Hle. congruence.
  - destruct (Qle_bool b a) eqn:E; [|reflexivity].
    apply Qle_bool_iff in E. exfalso. exact (Qlt_not_le _ _ H E).
Qed.

Lemma Qltb_ge (a b : Q) : Qltb a b = false <-> b <= a.
Proof.
  unfold Qltb. rewrite negb_false_iff. apply Qle_bool_iff.
Qed.

(** The test [required and required > 0] is the test [required > 0]. *)
Lemma positive_test (r : Q) : truthy r && Qltb 0 r = true <-> 0 < r.
Proof.
  rewrite andb_true_iff, Qltb_lt. unfold truthy. split.
  - intros [_ H]. exact H.
  - intro H. split; [|exact H]. rewrite negb_true_iff.
    destruct (Qeq_bool r 0) eqn:E; [|reflexivity].
    apply Qeq_bool_iff in E. rewrite E in H. discriminate H.
Qed.

Lemma positive_test_false (r : Q) : truthy r && Qltb 0 r = false <-> r <= 0.
Proof.
  split; intro H.
  - apply Qnot_lt_le. intro Hlt. apply positive_test in Hlt. congruence.
  - destruct (truthy r && Qltb 0 r) eqn:E; [|reflexivity].
    apply positive_test in E. exfalso. exact (Qlt_not_le _ _ E H).
Qed.

Lemma pydiv_some (a b : Q) : ~ b == 0 -> pydiv a b = Some (a / b).
Proof.
  intro H. unfold pydiv. destruct (Qeq_bool b 0) eqn:E; [|reflexivity].
  apply Qeq_bool_iff in E. contradiction.
Qed.

Lemma pydiv_zero (a b : Q) : b == 0 -> pydiv a b = None.
Proof.
  intro H. unfold pydiv. apply Qeq_bool_iff in H. rewrite H. reflexivity.
Qed.

(** ** Rounding up to four decimals *)

Lemma factor_pos : 0 < factor.
Proof. reflexivity. Qed.

(** The result is a multiple of [0.0001]. *)
Lemma round_up_multiple (x : Q) :
  round_up_to_4_dec x == inject_Z (Qceiling (x * factor)) * 0.0001.
Proof.
  unfold round_up_to_4_dec, factor. field.
Qed.

Lemma round_up_ge (x : Q) : x <= round_up_to_4_dec x.
Proof.
  unfold round_up_to_4_dec. apply Qle_shift_div_l; [exact factor_pos|].
  apply Qle_ceiling.
Qed.

Lemma round_up_close (x : Q) : round_up_to_4_dec x - x < 0.0001.
Proof.
  pose proof (Qceiling_lt (x * factor)) as H.
  rewrite round_up_multiple. unfold factor in *.
  unfold Z.sub in H. rewrite inject_Z_plus, inject_Z_opp in H.
  change (inject_Z 1) with 1 in H. lra.
Qed.

(** No multiple of [0.0001] lies between [x] and the result. *)
Lemma round_up_least (x : Q) (k : Z) :
  x <= inject_Z k * 0.0001 -> round_up_to_4_dec x <= inject_Z k * 0.0001.
Proof.
  intro H. rewrite round_up_multiple.
  assert (Hk : (Qceiling (x * factor) <= k)%Z).
  { rewrite <- (Qceiling_Z k). apply Qceiling_resp_le. unfold factor. lra. }
  rewrite Zle_Qle in Hk. lra.
Qed.

Lemma round_up_fixed (k : Z) :
  round_up_to_4_dec (inject_Z k * 0.0001) == inject_Z k * 0.0001.
Proof.
  apply Qle_antisym.
  - apply round_up_least. apply Qle_refl.
  - apply round_up_ge.
Qed.

Lemma round_up_mono (x y : Q) :
  x <= y -> round_up_to_4_dec x <= round_up_to_4_dec y.
Proof.
  intro H. rewrite (round_up_multiple y). apply round_up_least.
  rewrite <- round_up_multiple. apply Qle_trans with y; [exact H|apply round_up_ge].
Qed.

#[export] Instance round_up_to_4_dec_comp : Proper (Qeq ==> Qeq) round_up_to_4_dec.
Proof.
  intros x y H. unfold round_up_to_4_dec. rewrite H. reflexivity.
Qed.

(** In exact arithmetic, on a non-negative number the helper and the
    spreadsheet function agree. *)
Lemma round_up_spreadsheet_nonneg (x : Q) :
  0 <= x -> round_up_to_4_dec x = spreadsheet_roundup4 x.
Proof.
  intro H. unfold spreadsheet_roundup4.
  apply Qltb_ge in H. rewrite H. reflexivity.
Qed.

(** In exact arithmetic, on a negative number the helper never moves away
    from zero. *)
Lemma round_up_negative_toward_zero (x : Q) :
  x < 0 -> Qabs (round_up_to_4_dec x) <= Qabs x.
Proof.
  intro H.
  assert (H0 : round_up_to_4_dec x <= 0).
  { pose proof (round_up_least x 0) as H1.
    change (inject_Z 0) with 0 in H1. lra. }
  rewrite (Qabs_neg _ H0), (Qabs_neg x) by (apply Qlt_le_weak, H).
  pose proof (round_up_ge x). lra.
Qed.

(** In exact arithmetic, on every non-negative [x] the helper returns a
    multiple of 0.0001 that is at least [x] and less than 0.0001 above it,
    no multiple of 0.0001 lies in between, a multiple of 0.0001 is returned
    unchanged, and 0.5000 goes to 0.5000. *)
Theorem round_up_to_4_dec_least_multiple (x : Q) :
  0 <= x ->
  x <= round_up_to_4_dec x /\
  round_up_to_4_dec x - x < 0.0001 /\
  (exists k : Z, round_up_to_4_dec x == inject_Z k * 0.0001) /\
  (forall k : Z, x <= inject_Z k * 0.0001 ->
                 round_up_to_4_dec x <= inject_Z k * 0.0001) /\
  (forall k : Z, x == inject_Z k * 0.0001 -> round_up_to_4_dec x == x) /\
  round_up_to_4_dec 0.5000 == 0.5000.
Proof.
  intros _.
  split; [apply round_up_ge|].
  split; [apply round_up_close|].
  split; [exists (Qceiling (x * factor)); apply round_up_multiple|].
  split; [apply round_up_least|].
  split; [|reflexivity].
  intros k Hk. rewrite Hk. apply round_up_fixed.
Qed.

Lemma round_up_to_4_dec_least_multiple_witness :
  0 <= 8.80001 /\
  8.80001 <= round_up_to_4_dec 8.80001 /\
  round_up_to_4_dec 8.80001 - 8.80001 < 0.0001.
Proof.
  assert (H : 0 <= 8.80001) by (vm_compute; discriminate).
  split; [exact H|].
  destruct (round_up_to_4_dec_least_multiple 8.80001 H) as (Hge & Hlt & _).
  split; [exact Hge | exact Hlt].
Defined.

(** ** Ceiling lookups *)

Lemma select_pcs_rating_lookup (x : Q) :
  select_pcs_rating x = ceiling_lookup pcs_sizes x.
Proof. reflexivity. Qed.

(** What the loop finds is the first entry that is [>= x]; every entry
    before it is smaller than [x]. *)
Lemma find_ge_first (table : list Q) (x s : Q) :
  find (fun t => Qle_bool x t) table = Some s ->
  exists before after,
    table = before ++ s :: after /\ x <= s /\ Forall (fun t => t < x) before.
Proof.
  induction table as [|t rest IH]; simpl; [discriminate|].
  destruct (Qle_bool x t) eqn:E.
  - intro H. injection H as <-. exists [], rest.
    split; [reflexivity|]. split; [apply Qle_bool_iff, E | constructor].
  - intro H. destruct (IH H) as (before & after & -> & Hle & Hlt).
    exists (t :: before), after. split; [reflexivity|]. split; [exact Hle|].
    constructor; [|exact Hlt]. apply Qltb_lt. unfold Qltb. rewrite E. reflexivity.
Qed.

Lemma find_ge_none (table : list Q) (x : Q) :
  find (fun t => Qle_bool x t) table = None -> Forall (fun t => t < x) table.
Proof.
  intro H. apply Forall_forall. intros t Ht.
  pose proof (find_none _ _ H t Ht) as E. cbv beta in E.
  apply Qltb_lt. unfold Qltb. rewrite E. reflexivity.
Qed.

Lemma sorted_suffix (before after : list Q) :
  StronglySorted Qle (before ++ after) -> StronglySorted Qle after.
Proof.
  induction before as [|t before IH]; simpl; intro H; [exact H|].
  apply IH. apply StronglySorted_inv in H. exact (proj1 H).
Qed.

Section SortedTable.

Variable table : list Q.
Hypothesis table_sorted : StronglySorted Qle table.
Hypothesis table_nonempty : table <> [].

Lemma ceiling_lookup_in (x : Q) : In (ceiling_lookup table x) table.
Proof.
  unfold ceiling_lookup.
  destruct (find (fun s => Qle_bool x s) table) as [s|] eqn:E.
  - apply find_some in E. exact (proj1 E).
  - destruct (exists_last table_nonempty) as (front & final & Hl).
    rewrite Hl, last_last. apply in_or_app. right. left. reflexivity.
Qed.

(** When some entry qualifies, the lookup returns the least such entry. *)
Lemma ceiling_lookup_least (x : Q) :
  (exists s, In s table /\ x <= s) ->
  x <= ceiling_lookup table x /\
  forall s, In s table -> x <= s -> ceiling_lookup table x <= s.
Proof.
  intros (s0 & Hin0 & Hle0). unfold ceiling_lookup.
  destruct (find (fun s => Qle_bool x s) table) as [r|] eqn:E.
  - destruct (find_ge_first _ _ _ E) as (before & after & Ht & Hle & Hlt).
    split; [exact Hle|]. intros s Hin Hs.
    rewrite Ht in Hin. apply in_app_or in Hin. destruct Hin as [Hin|Hin].
    + rewrite Forall_forall in Hlt. specialize (Hlt s Hin).
      exfalso. exact (Qlt_not_le _ _ Hlt Hs).
    + destruct Hin as [<-|Hin]; [apply Qle_refl|].
      pose proof table_sorted as Hs'. rewrite Ht in Hs'.
      apply sorted_suffix in Hs'.
      apply StronglySorted_inv in Hs'. destruct Hs' as [_ Hall].
      rewrite Forall_forall in Hall. exact (Hall s Hin).
  - apply find_ge_none in E. rewrite Forall_forall in E.
    exfalso. exact (Qlt_not_le _ _ (E s0 Hin0) Hle0).
Qed.

(** When no entry qualifies, the lookup returns the last entry. *)
Lemma ceiling_lookup_clamped (x : Q) :
  (forall s, In s table -> ~ x <= s) ->
  ceiling_lookup table x = last table 0.
Proof.
  intro Hnone. unfold ceiling_lookup.
  destruct (find (fun s => Qle_bool x s) table) as [r|] eqn:E; [|reflexivity].
  apply find_some in E. destruct E as [Hin Hle].
  apply Qle_bool_iff in Hle. exfalso. exact (Hnone r Hin Hle).
Qed.

End SortedTable.

Lemma pcs_sizes_sorted : StronglySorted Qle pcs_sizes.
Proof.
  unfold pcs_sizes.
  repeat (constructor; [|repeat constructor; discriminate]). constructor.
Qed.

Lemma candidates_sorted : StronglySorted Qle candidates.
Proof.
  unfold candidates.
  repeat (constructor; [|repeat constructor; discriminate]). constructor.
Qed.

Lemma pcs_sizes_at_least (s : Q) : In s pcs_sizes -> 1.25 <= s.
Proof.
  unfold pcs_sizes. simpl.
  intros [<-|[<-|[<-|[<-|[<-|[<-|[]]]]]]]; discriminate.
Qed.

Lemma select_pcs_rating_pos (x : Q) : 0 < select_pcs_rating x.
Proof.
  apply Qlt_le_trans with 1.25; [reflexivity|].
  apply pcs_sizes_at_least. rewrite select_pcs_rating_lookup.
  apply ceiling_lookup_in. discriminate.
Qed.

(** C6: the rating is an entry of the table; when some entry is [>=] the
    power it is the least such entry, otherwise it is 5.00; and the three
    sample lookups give 1.25, 1.5 and 5.0. *)
Theorem select_pcs_rating_clamped_ceiling (x : Q) :
  In (select_pcs_rating x) pcs_sizes /\
  ((exists s, In s pcs_sizes /\ x <= s) ->
     x <= select_pcs_rating x /\
     forall s, In s pcs_sizes -> x <= s -> select_pcs_rating x <= s) /\
  ((forall s, In s pcs_sizes -> ~ x <= s) -> select_pcs_rating x == 5.00) /\
  select_pcs_rating 1.25 == 1.25 /\
  select_pcs_rating 1.26 == 1.5 /\
  select_pcs_rating 6.0 == 5.0.
Proof.
  rewrite select_pcs_rating_lookup.
  split; [apply ceiling_lookup_in; discriminate|].
  split; [apply ceiling_lookup_least; exact pcs_sizes_sorted|].
  split; [|split; [reflexivity|split; reflexivity]].
  intro H. rewrite (ceiling_lookup_clamped pcs_sizes _ H). reflexivity.
Qed.

Lemma select_pcs_rating_clamped_ceiling_witness :
  (1.6 <= select_pcs_rating 1.6 /\
   forall s, In s pcs_sizes -> 1.6 <= s -> select_pcs_rating 1.6 <= s) /\
  select_pcs_rating 7 == 5.00.
Proof.
  destruct (select_pcs_rating_clamped_ceiling 1.6) as (_ & Hleast & _).
  destruct (select_pcs_rating_clamped_ceiling 7) as (_ & _ & Hclamp & _).
  split.
  - apply Hleast. exists 1.75. split; [simpl; tauto | discriminate].
  - apply Hclamp. intros s Hs Hle. apply pcs_sizes_at_least in Hs as Hlow.
    simpl in Hs.
    repeat (destruct Hs as [<-|Hs]; [revert Hle; vm_compute; tauto|]).
    exact Hs.
Defined.

(** ** Transformer label *)

Lemma select_transformer_mva_lookup (x : Q) :
  select_transformer_mva x = mva_label (ceiling_lookup candidates x).
Proof.
  unfold select_transformer_mva, ceiling_lookup.
  destruct (find (fun c => Qle_bool x c) candidates); reflexivity.
Qed.

Lemma string_app_assoc (s t u : string) :
  ((s ++ t) ++ u = s ++ (t ++ u))%string.
Proof.
  induction s as [|a s IH]; simpl; [reflexivity|]. rewrite IH. reflexivity.
Qed.

(** Stripping stops at once on a string whose last character is not in the
    set: nothing is removed. *)
Lemma rstrip_last_kept (chars s : string) (a : ascii) :
  mem_char a chars = false ->
  rstrip chars (s ++ String a EmptyString) = (s ++ String a EmptyString)%string.
Proof.
  intro Ha. induction s as [|b s IH]; simpl.
  - rewrite Ha. reflexivity.
  - rewrite IH. destruct s; reflexivity.
Qed.

(** Both [rstrip] calls act on a string that already ends in ["MVA"], so the
    label of every candidate is its two-decimal form followed by the suffix
    twice. *)
Lemma mva_label_suffix_twice (c : Q) :
  mva_label c = (format_2f c ++ "MVAMVA")%string.
Proof.
  unfold mva_label.
  replace (format_2f c ++ "MVA")%string
    with ((format_2f c ++ "MV") ++ String "A" EmptyString)%string
    by (rewrite string_app_assoc; reflexivity).
  rewrite !rstrip_last_kept by reflexivity.
  rewrite !string_app_assoc. reflexivity.
Qed.

Lemma select_transformer_mva_shape (x : Q) :
  select_transformer_mva x
  = (format_2f (ceiling_lookup candidates x) ++ "MVAMVA")%string.
Proof.
  rewrite select_transformer_mva_lookup. apply mva_label_suffix_twice.
Qed.

(** The candidate behind the label is the least one that is [>=] the power,
    and 5.0 when there is none. *)
Lemma transformer_candidate_least (x : Q) :
  In (ceiling_lookup candidates x) candidates /\
  ((exists c, In c candidates /\ x <= c) ->
     x <= ceiling_lookup candidates x /\
     forall c, In c candidates -> x <= c -> ceiling_lookup candidates x <= c) /\
  ((forall c, In c candidates -> ~ x <= c) ->
     ceiling_lookup candidates x = 5.0).
Proof.
  split; [apply ceiling_lookup_in; discriminate|].
  split; [apply ceiling_lookup_least; exact candidates_sorted|].
  intro H. rewrite (ceiling_lookup_clamped candidates _ H). reflexivity.
Qed.

(** C1: for a container power of 2.0 MW the function returns
    ["2.00MVAMVA"], where the trimmed label of the same candidate is
    ["2MVA"]; for 1.75 MW it returns ["1.75MVAMVA"], not ["1.75MVA"]. *)
Theorem select_transformer_mva_at_2 :
  select_transformer_mva 2.0 = "2.00MVAMVA"%string /\
  trimmed_mva_label (ceiling_lookup candidates 2.0) = "2MVA"%string /\
  select_transformer_mva 1.75 = "1.75MVAMVA"%string /\
  trimmed_mva_label (ceiling_lookup candidates 1.75) = "1.75MVA"%string.
Proof.
  split; [reflexivity|]. split; [reflexivity|]. split; reflexivity.
Qed.

(** ** Capacity chain *)

Lemma widget_ranges_chain (i : Inputs) : widget_ranges i -> chain_ranges i.
Proof.
  unfold widget_ranges, chain_ranges.
  intros (Hl & Hd & (Hp1 & Hp2) & (Hr1 & Hr2) & (Ho1 & Ho2) & _).
  repeat split; try assumption; lra.
Qed.

Lemma fraction_pos (p : Q) : 0 < p -> 0 < p / 100.
Proof.
  intro Hp. apply Qlt_shift_div_l; lra.
Qed.

(** Dividing a non-negative amount by an efficiency of at most 100 % does
    not decrease it. *)
Lemma div_by_fraction_ge (a p : Q) :
  0 <= a -> 0 < p -> p <= 100 -> a <= a / (p / 100).
Proof.
  intros Ha Hp Hp100. apply Qle_shift_div_l; [apply fraction_pos, Hp|].
  setoid_replace (a * (p / 100)) with (a * p * (1 # 100)) by field. nra.
Qed.

(** One step of the chain: the division succeeds and the rounded quotient
    is at least the amount it started from. *)
Lemma chain_step (a p : Q) :
  0 <= a -> 0 < p -> p <= 100 ->
  pydiv a (p / 100) = Some (a / (p / 100)) /\
  a <= round_up_to_4_dec (a / (p / 100)).
Proof.
  intros Ha Hp Hp100. split.
  - apply pydiv_some. intro H. apply fraction_pos in Hp.
    rewrite H in Hp. discriminate Hp.
  - apply Qle_trans with (a / (p / 100)).
    + apply div_by_fraction_ge; assumption.
    + apply round_up_ge.
Qed.

Lemma capacity_chain_monotone (i : Inputs) :
  chain_ranges i ->
  exists cap,
    capacity_chain i = Some cap /\
    initial_mwh cap == load_mw i * discharge_h i /\
    0 <= initial_mwh cap /\
    initial_mwh cap <= after_dod_mwh cap /\
    after_dod_mwh cap <= after_rte_mwh cap /\
    after_rte_mwh cap <= after_other_eff_mwh cap /\
    required_bess_mwh cap = after_other_eff_mwh cap /\
    required_discharge_power_mw cap = load_mw i /\
    customer_c_rate cap = c_rate i.
Proof.
  intros (Hl & Hd & (Hp1 & Hp2) & (Hr1 & Hr2) & (Ho1 & Ho2)).
  assert (H0 : 0 <= load_mw i * discharge_h i) by (apply Qmult_le_0_compat; assumption).
  destruct (chain_step _ _ H0 Hp1 Hp2) as [E1 G1].
  assert (H1 : 0 <= round_up_to_4_dec (load_mw i * discharge_h i / (dod_percent i / 100)))
    by (eapply Qle_trans; eassumption).
  destruct (chain_step _ _ H1 Hr1 Hr2) as [E2 G2].
  assert (H2 : 0 <= round_up_to_4_dec
                      (round_up_to_4_dec (load_mw i * discharge_h i / (dod_percent i / 100))
                       / (rte_percent i / 100)))
    by (eapply Qle_trans; eassumption).
  destruct (chain_step _ _ H2 Ho1 Ho2) as [E3 G3].
  unfold capacity_chain. rewrite E1. simpl. rewrite E2. simpl. rewrite E3. simpl.
  eexists. split; [reflexivity|]. simpl.
  split; [reflexivity|]. split; [exact H0|].
  split; [exact G1|]. split; [exact G2|]. split; [exact G3|].
  split; [reflexivity|]. split; reflexivity.
Qed.

(** In exact arithmetic, for a non-negative load and duration and
    percentages in (0, 100] the chain returns its values, and each stage is
    at least the one before it. *)
Theorem capacity_chain_monotonicity (i : Inputs) :
  0 <= load_mw i -> 0 <= discharge_h i ->
  0 < dod_percent i <= 100 ->
  0 < rte_percent i <= 100 ->
  0 < other_eff_percent i <= 100 ->
  exists cap,
    capacity_chain i = Some cap /\
    initial_mwh cap <= after_dod_mwh cap /\
    after_dod_mwh cap <= after_rte_mwh cap /\
    after_rte_mwh cap <= after_other_eff_mwh cap.
Proof.
  intros Hl Hd Hp Hr Ho.
  destruct (capacity_chain_monotone i) as (cap & E & _ & _ & G1 & G2 & G3 & _).
  { unfold chain_ranges. tauto. }
  exists cap. tauto.
Qed.

Lemma default_inputs_in_range : widget_ranges default_inputs.
Proof.
  unfold widget_ranges, default_inputs; simpl.
  repeat split; discriminate.
Qed.

Lemma capacity_chain_monotonicity_witness :
  exists cap,
    capacity_chain default_inputs = Some cap /\
    initial_mwh cap <= after_dod_mwh cap /\
    after_dod_mwh cap <= after_rte_mwh cap /\
    after_rte_mwh cap <= after_other_eff_mwh cap.
Proof.
  apply (capacity_chain_monotonicity default_inputs); simpl;
    try split; solve [discriminate | reflexivity].
Defined.

(** ** Unit count of one battery model *)

Section UnitCount.

Variables required cap_kwh : Q.
Hypothesis cap_pos : 0 < cap_kwh.

Lemma quotient_times_cap : (required * 1000 / cap_kwh) * cap_kwh == required * 1000.
Proof.
  field. intro H. rewrite H in cap_pos. discriminate cap_pos.
Qed.

Lemma units_for_defined :
  units_for required cap_kwh
  = Some (if Qltb 0 required then Qceiling (required * 1000 / cap_kwh) else 0%Z).
Proof.
  unfold units_for. destruct (Qltb 0 required); [|reflexivity].
  rewrite pydiv_some; [reflexivity|].
  intro H. rewrite H in cap_pos. discriminate cap_pos.
Qed.

(** The installed capacity covers the requirement. *)
Lemma units_cover :
  required <= inject_Z (Qceiling (required * 1000 / cap_kwh)) * cap_kwh / 1000.
Proof.
  pose proof (Qle_ceiling (required * 1000 / cap_kwh)) as Hc.
  pose proof quotient_times_cap as He.
  apply Qle_shift_div_l; [reflexivity|]. nra.
Qed.

(** No smaller count covers it. *)
Lemma units_minimal (n : Z) :
  required <= inject_Z n * cap_kwh / 1000 -> (Qceiling (required * 1000 / cap_kwh) <= n)%Z.
Proof.
  intro Hn. rewrite <- (Qceiling_Z n). apply Qceiling_resp_le.
  apply Qle_shift_div_r; [exact cap_pos|].
  setoid_replace (inject_Z n * cap_kwh / 1000)
    with (inject_Z n * cap_kwh * (1 # 1000)) in Hn by field.
  lra.
Qed.

Lemma units_nonneg : 0 <= required -> (0 <= Qceiling (required * 1000 / cap_kwh))%Z.
Proof.
  intro Hr. change 0%Z with (Qceiling 0). apply Qceiling_resp_le.
  apply Qle_shift_div_l; [exact cap_pos|]. lra.
Qed.

(** One unit fewer would not cover the requirement: the surplus is less
    than one unit. *)
Lemma surplus_below_one_unit :
  inject_Z (Qceiling (required * 1000 / cap_kwh)) * cap_kwh / 1000 - required < cap_kwh / 1000.
Proof.
  pose proof (Qceiling_lt (required * 1000 / cap_kwh)) as Hc.
  unfold Z.sub in Hc. rewrite inject_Z_plus, inject_Z_opp in Hc.
  change (inject_Z 1) with 1 in Hc.
  pose proof quotient_times_cap as He.
  setoid_replace (inject_Z (Qceiling (required * 1000 / cap_kwh)) * cap_kwh / 1000)
    with (inject_Z (Qceiling (required * 1000 / cap_kwh)) * cap_kwh * (1 # 1000)) by field.
  setoid_replace (cap_kwh / 1000) with (cap_kwh * (1 # 1000)) by field.
  nra.
Qed.

End UnitCount.

(** ** Rows of the configuration table *)

(** The fields of a computed row, for a model of positive capacity. *)
Lemma compute_row_fields (required power crate : Q) (model : BatteryModel) :
  0 < capacity_kwh model ->
  exists row,
    compute_row required power crate model = Some row /\
    unit_capacity_kwh row = capacity_kwh model /\
    number_of_units row
      = (if Qltb 0 required
         then Qceiling (required * 1000 / capacity_kwh model) else 0%Z) /\
    total_installed_mwh row
      = inject_Z (number_of_units row) * unit_capacity_kwh row / 1000 /\
    oversizing_mwh row = total_installed_mwh row - required /\
    oversizing_pct row
      = (if truthy required && Qltb 0 required
         then oversizing_mwh row / required * 100 else 0) /\
    pcs_rating_mw row = select_pcs_rating (crate * capacity_kwh model / 1000) /\
    pcs_quantity row = pcs_quantity_for power (pcs_rating_mw row).
Proof.
  intro Hcap. unfold compute_row.
  rewrite (units_for_defined required _ Hcap). simpl.
  eexists. split; [reflexivity|]. simpl.
  repeat (split; [reflexivity|]). reflexivity.
Qed.

(** The loop succeeds on a catalog of positive capacities and yields one
    row per model, in catalog order. *)
Lemma compute_rows_defined (required power crate : Q) (models : list BatteryModel) :
  Forall (fun m => 0 < capacity_kwh m) models ->
  exists rows,
    compute_rows required power crate models = Some rows /\
    Forall2 (fun m row => compute_row required power crate m = Some row)
            models rows.
Proof.
  induction 1 as [|m rest Hm _ IH]; simpl.
  - exists []. split; [reflexivity|constructor].
  - destruct (compute_row_fields required power crate m Hm) as (row & E & _).
    destruct IH as (rows & Erest & Hall).
    rewrite E, Erest. simpl. exists (row :: rows).
    split; [reflexivity|]. constructor; assumption.
Qed.

Lemma Forall2_rows (P : Row -> Prop) (f : BatteryModel -> option Row)
      (models : list BatteryModel) (rows : list Row) :
  Forall2 (fun m row => f m = Some row) models rows ->
  Forall (fun m => forall row, f m = Some row -> P row) models ->
  Forall P rows /\ List.length rows = List.length models.
Proof.
  induction 1 as [|m row ms rs E _ IH]; intro H.
  - split; [constructor|reflexivity].
  - apply Forall_cons_iff in H. destruct H as [Hm Hms].
    destruct (IH Hms) as [Hrs Hlen]. split.
    + constructor; [exact (Hm row E)|exact Hrs].
    + simpl. rewrite Hlen. reflexivity.
Qed.

Lemma battery_models_positive :
  Forall (fun m => 0 < capacity_kwh m) battery_models.
Proof.
  unfold battery_models. repeat constructor.
Qed.

(** Every row the loop computes from the catalog has a property that holds
    of each computed row of a positive-capacity model. *)
Lemma catalog_rows_all (P : Row -> Prop) (required power crate : Q) :
  (forall m row, 0 < capacity_kwh m ->
                 compute_row required power crate m = Some row -> P row) ->
  exists rows,
    compute_rows required power crate battery_models = Some rows /\
    List.length rows = 3%nat /\ Forall P rows.
Proof.
  intro HP.
  destruct (compute_rows_defined required power crate _ battery_models_positive)
    as (rows & E & Hall).
  exists rows. split; [exact E|].
  apply Forall2_rows with (P := P) in Hall.
  - destruct Hall as [Hrows Hlen]. split; [exact Hlen|exact Hrows].
  - eapply Forall_impl; [|exact battery_models_positive].
    intros m Hm row Hrow. exact (HP m row Hm Hrow).
Qed.

(** The sizing of one row. *)
Lemma row_sizing (required power crate : Q) (m : BatteryModel) (row : Row) :
  0 < capacity_kwh m ->
  compute_row required power crate m = Some row ->
  total_installed_mwh row
    == inject_Z (number_of_units row) * unit_capacity_kwh row / 1000 /\
  (0 < required ->
     (0 <= number_of_units row)%Z /\
     required <= total_installed_mwh row /\
     forall n : Z, (0 <= n)%Z ->
       required <= inject_Z n * unit_capacity_kwh row / 1000 ->
       (number_of_units row <= n)%Z) /\
  (required <= 0 -> number_of_units row = 0%Z).
Proof.
  intros Hcap Hrow.
  destruct (compute_row_fields required power crate m Hcap)
    as (row' & E & Hc & Hu & Ht & _).
  rewrite Hrow in E. injection E as <-.
  split; [rewrite Ht; reflexivity|]. split.
  - intro Hreq. apply Qltb_lt in Hreq as Hb. rewrite Hb in Hu.
    rewrite Ht, Hu, Hc. split; [|split].
    + apply units_nonneg; [exact Hcap|]. apply Qlt_le_weak, Hreq.
    + apply units_cover, Hcap.
    + intros n _ Hn. apply units_minimal; assumption.
  - intro Hreq. apply Qltb_ge in Hreq. rewrite Hreq in Hu. exact Hu.
Qed.

(** In exact arithmetic, for every requirement the loop yields the three
    catalog rows, and in each row the installed capacity is count times
    unit capacity over 1000;
    for a positive requirement the count is non-negative, covers the
    requirement and no smaller non-negative count does; for a requirement
    that is not positive the count is 0. *)
Theorem catalog_unit_count_minimal (required power crate : Q) :
  exists rows,
    compute_rows required power crate battery_models = Some rows /\
    List.length rows = 3%nat /\
    Forall (fun row =>
      total_installed_mwh row
        == inject_Z (number_of_units row) * unit_capacity_kwh row / 1000 /\
      (0 < required ->
         (0 <= number_of_units row)%Z /\
         required <= total_installed_mwh row /\
         forall n : Z, (0 <= n)%Z ->
           required <= inject_Z n * unit_capacity_kwh row / 1000 ->
           (number_of_units row <= n)%Z) /\
      (required <= 0 -> number_of_units row = 0%Z)) rows.
Proof.
  apply catalog_rows_all. intros m row Hm Hrow.
  exact (row_sizing required power crate m row Hm Hrow).
Qed.

Lemma catalog_unit_count_minimal_witness :
  exists rows,
    compute_rows 9.9267 0.99 0.25 battery_models = Some rows /\
    Forall (fun row => 9.9267 <= total_installed_mwh row) rows.
Proof.
  destruct (catalog_unit_count_minimal 9.9267 0.99 0.25)
    as (rows & E & _ & Hall).
  exists rows. split; [exact E|].
  eapply Forall_impl; [|exact Hall].
  intros row (_ & Hpos & _). apply Hpos. reflexivity.
Defined.

(** ** PCS quantity *)

Lemma pcs_quantity_for_rating (power x : Q) :
  pcs_quantity_for power (select_pcs_rating x)
  = Qceiling (power / select_pcs_rating x).
Proof.
  pose proof (select_pcs_rating_pos x) as Hpos. apply Qltb_lt in Hpos.
  unfold pcs_quantity_for. rewrite Hpos. reflexivity.
Qed.

Lemma row_pcs (required power crate : Q) (m : BatteryModel) (row : Row) :
  0 < capacity_kwh m ->
  compute_row required power crate m = Some row ->
  In (pcs_rating_mw row) pcs_sizes /\
  0 < pcs_rating_mw row /\
  pcs_quantity row = Qceiling (power / pcs_rating_mw row).
Proof.
  intros Hcap Hrow.
  destruct (compute_row_fields required power crate m Hcap)
    as (row' & E & _ & _ & _ & _ & _ & Hr & Hq).
  rewrite Hrow in E. injection E as <-.
  rewrite Hq, Hr. split; [|split].
  - rewrite select_pcs_rating_lookup. apply ceiling_lookup_in. discriminate.
  - apply select_pcs_rating_pos.
  - apply pcs_quantity_for_rating.
Qed.

(** C10: the rating is always an entry of the table, hence at least 1.25
    and positive, so the test [rating > 0] succeeds and the quantity is the
    ceiling of power over rating; every row of the table carries a positive
    rating from the table and that quantity. *)
Theorem pcs_quantity_guard_unreachable (required power crate x : Q) :
  In (select_pcs_rating x) pcs_sizes /\
  1.25 <= select_pcs_rating x /\
  0 < select_pcs_rating x /\
  Qltb 0 (select_pcs_rating x) = true /\
  pcs_quantity_for power (select_pcs_rating x)
    = Qceiling (power / select_pcs_rating x) /\
  exists rows,
    compute_rows required power crate battery_models = Some rows /\
    List.length rows = 3%nat /\
    Forall (fun row =>
      In (pcs_rating_mw row) pcs_sizes /\
      0 < pcs_rating_mw row /\
      pcs_quantity row = Qceiling (power / pcs_rating_mw row)) rows.
Proof.
  assert (Hin : In (select_pcs_rating x) pcs_sizes).
  { rewrite select_pcs_rating_lookup. apply ceiling_lookup_in. discriminate. }
  pose proof (select_pcs_rating_pos x) as Hpos.
  split; [exact Hin|].
  split; [apply pcs_sizes_at_least, Hin|].
  split; [exact Hpos|].
  split; [apply Qltb_lt, Hpos|].
  split; [apply pcs_quantity_for_rating|].
  apply catalog_rows_all. intros m row Hm Hrow.
  exact (row_pcs required power crate m row Hm Hrow).
Qed.

(** ** Oversizing *)

(** The oversizing of one row, by the sign of the requirement. *)
Lemma row_oversizing (required power crate : Q) (m : BatteryModel) (row : Row) :
  0 < capacity_kwh m ->
  compute_row required power crate m = Some row ->
  (0 < required ->
     0 <= oversizing_mwh row /\
     oversizing_mwh row < unit_capacity_kwh row / 1000 /\
     oversizing_pct row == oversizing_mwh row / required * 100) /\
  (required <= 0 ->
     oversizing_mwh row == - required /\ oversizing_pct row == 0).
Proof.
  intros Hcap Hrow.
  destruct (compute_row_fields required power crate m Hcap)
    as (row' & E & Hc & Hu & Ht & Ho & Hp & _).
  rewrite Hrow in E. injection E as <-. split.
  - intro Hreq. apply Qltb_lt in Hreq as Hb. rewrite Hb in Hu.
    apply positive_test in Hreq as Hpos. rewrite Hpos in Hp.
    rewrite Ho, Ht, Hu, Hc. split; [|split].
    + pose proof (units_cover required _ Hcap). lra.
    + apply surplus_below_one_unit, Hcap.
    + rewrite Hp, Ho, Ht, Hu, Hc. reflexivity.
  - intro Hreq. apply Qltb_ge in Hreq as Hb. rewrite Hb in Hu.
    apply positive_test_false in Hreq as Hneg. rewrite Hneg in Hp.
    rewrite Ho, Ht, Hu, Hp. split; [|reflexivity].
    change (inject_Z 0) with 0. field.
Qed.

(** The requirement the chain hands to the loop is never negative. *)
Lemma required_nonneg (i : Inputs) (cap : Capacity) :
  chain_ranges i -> capacity_chain i = Some cap -> 0 <= required_bess_mwh cap.
Proof.
  intros Hi Hcap.
  destruct (capacity_chain_monotone i Hi)
    as (cap' & E & _ & H0 & H1 & H2 & H3 & Hreq & _).
  rewrite Hcap in E. injection E as <-. rewrite Hreq.
  apply Qle_trans with (after_rte_mwh cap); [|exact H3].
  apply Qle_trans with (after_dod_mwh cap); [|exact H2].
  apply Qle_trans with (initial_mwh cap); assumption.
Qed.

(** In exact arithmetic, for inputs in the ranges of the chain, the chain
    and the loop return their values, and in every row a positive
    requirement gives an
    oversizing of at least 0 and less than one unit, while a requirement
    that is not positive gives an oversizing and a percentage of 0. *)
Theorem catalog_oversizing_bounded (i : Inputs) :
  chain_ranges i ->
  exists cap rows,
    capacity_chain i = Some cap /\
    compute_rows (required_bess_mwh cap) (required_discharge_power_mw cap)
                 (customer_c_rate cap) battery_models = Some rows /\
    List.length rows = 3%nat /\
    Forall (fun row =>
      (0 < required_bess_mwh cap ->
         0 <= oversizing_mwh row /\
         oversizing_mwh row < unit_capacity_kwh row / 1000) /\
      (required_bess_mwh cap <= 0 ->
         oversizing_mwh row == 0 /\ oversizing_pct row == 0)) rows.
Proof.
  intro Hi.
  destruct (capacity_chain_monotone i Hi) as (cap & Ecap & _).
  pose proof (required_nonneg i cap Hi Ecap) as Hnn.
  exists cap.
  destruct (catalog_rows_all
              (fun row =>
                 (0 < required_bess_mwh cap ->
                    0 <= oversizing_mwh row /\
                    oversizing_mwh row < unit_capacity_kwh row / 1000) /\
                 (required_bess_mwh cap <= 0 ->
                    oversizing_mwh row == 0 /\ oversizing_pct row == 0))
              (required_bess_mwh cap) (required_discharge_power_mw cap)
              (customer_c_rate cap)) as (rows & Erows & Hlen & Hall).
  - intros m row Hm Hrow.
    destruct (row_oversizing _ _ _ m row Hm Hrow) as [Hpos Hneg]. split.
    + intro Hreq. destruct (Hpos Hreq) as (Ha & Hb & _). split; assumption.
    + intro Hreq. destruct (Hneg Hreq) as [Ha Hb]. split; [|exact Hb].
      rewrite Ha. lra.
  - exists rows. repeat (split; [assumption|]). exact Hall.
Qed.

Lemma default_inputs_chain : chain_ranges default_inputs.
Proof.
  apply widget_ranges_chain, default_inputs_in_range.
Qed.

Lemma catalog_oversizing_bounded_witness :
  exists cap rows,
    capacity_chain default_inputs = Some cap /\
    compute_rows (required_bess_mwh cap) (required_discharge_power_mw cap)
                 (customer_c_rate cap) battery_models = Some rows /\
    List.length rows = 3%nat /\
    Forall (fun row =>
      (0 < required_bess_mwh cap ->
         0 <= oversizing_mwh row /\
         oversizing_mwh row < unit_capacity_kwh row / 1000) /\
      (required_bess_mwh cap <= 0 ->
         oversizing_mwh row == 0 /\ oversizing_pct row == 0)) rows.
Proof.
  apply (catalog_oversizing_bounded default_inputs).
  unfold chain_ranges, default_inputs; simpl.
  repeat split; solve [discriminate | reflexivity].
Defined.

(** ** Best-fit selection *)

(** Clipping at 0 from below is taking the maximum with 0. *)
Lemma clip_is_max (v : Q) : (if Qltb v 0 then 0 else v) == Qmax v 0.
Proof.
  destruct (Qltb v 0) eqn:E.
  - apply Qltb_lt in E. symmetry. apply Q.max_r. apply Qlt_le_weak, E.
  - apply Qltb_ge in E. symmetry. apply Q.max_l. exact E.
Qed.

(** The scan keeps the position of a value that is [<=] every value seen and
    [<] every value seen before that position. *)
Lemma idxmin_from_first_min (rest seen : list Q) (best : nat) (best_v : Q) :
  nth_error seen best = Some best_v ->
  (forall j w, nth_error seen j = Some w ->
               best_v <= w /\ ((j < best)%nat -> best_v < w)) ->
  exists v,
    nth_error (seen ++ rest) (idxmin_from best best_v (List.length seen) rest)
      = Some v /\
    forall j w, nth_error (seen ++ rest) j = Some w ->
      v <= w /\ ((j < idxmin_from best best_v (List.length seen) rest)%nat -> v < w).
Proof.
  revert seen best best_v.
  induction rest as [|x rest IH]; intros seen best best_v Hbest Hmin; simpl.
  - rewrite app_nil_r. exists best_v. split; assumption.
  - assert (Hlen : S (List.length seen) = List.length (seen ++ [x]))
      by (rewrite length_app; simpl; lia).
    assert (Happ : seen ++ x :: rest = (seen ++ [x]) ++ rest)
      by (rewrite <- app_assoc; reflexivity).
    rewrite Hlen, Happ.
    destruct (Qltb x best_v) eqn:E.
    + apply Qltb_lt in E. apply IH.
      * rewrite nth_error_app2 by lia. rewrite Nat.sub_diag. reflexivity.
      * intros j w Hj.
        destruct (Nat.lt_ge_cases j (List.length seen)) as [Hlt|Hge].
        -- rewrite nth_error_app1 in Hj by exact Hlt.
           destruct (Hmin j w Hj) as [Hle _].
           assert (Hxw : x < w) by (apply Qlt_le_trans with best_v; assumption).
           split; [apply Qlt_le_weak, Hxw | intros _; exact Hxw].
        -- rewrite nth_error_app2 in Hj by exact Hge.
           destruct (j - List.length seen)%nat as [|k] eqn:Ek; simpl in Hj.
           ++ injection Hj as <-. split; [apply Qle_refl|]. intro Hc. lia.
           ++ destruct k; discriminate Hj.
    + apply Qltb_ge in E. apply IH.
      * rewrite nth_error_app1; [exact Hbest|].
        apply nth_error_Some. rewrite Hbest. discriminate.
      * intros j w Hj.
        destruct (Nat.lt_ge_cases j (List.length seen)) as [Hlt|Hge].
        -- rewrite nth_error_app1 in Hj by exact Hlt. exact (Hmin j w Hj).
        -- rewrite nth_error_app2 in Hj by exact Hge.
           assert (Hb : (best < List.length seen)%nat)
             by (apply nth_error_Some; rewrite Hbest; discriminate).
           destruct (j - List.length seen)%nat as [|k] eqn:Ek; simpl in Hj.
           ++ injection Hj as <-. split; [exact E|]. intro Hc. lia.
           ++ destruct k; discriminate Hj.
Qed.

(** [idxmin] returns the first position of a smallest value. *)
Lemma idxmin_first_min (values : list Q) :
  values <> [] ->
  exists i v,
    idxmin values = Some i /\ nth_error values i = Some v /\
    forall j w, nth_error values j = Some w ->
                v <= w /\ ((j < i)%nat -> v < w).
Proof.
  destruct values as [|v rest]; [congruence|]. intros _.
  destruct (idxmin_from_first_min rest [v] 0%nat v) as (m & Hm & Hmin).
  - reflexivity.
  - intros [|[|j]] w Hj; simpl in Hj; try discriminate Hj.
    injection Hj as <-. split; [apply Qle_refl|lia].
  - exists (idxmin_from 0 v 1 rest), m. split; [reflexivity|].
    split; assumption.
Qed.

Lemma clipped_nth (rows : list Row) (j : nat) :
  nth_error (clip_lower0 (map oversizing_mwh rows)) j
  = option_map (fun r => if Qltb (oversizing_mwh r) 0 then 0 else oversizing_mwh r)
               (nth_error rows j).
Proof.
  unfold clip_lower0. rewrite map_map. apply nth_error_map.
Qed.

(** What the selection returns on a non-empty table. *)
Lemma best_idx_first_min (required : Q) (rows : list Row) :
  rows <> [] -> 0 < required ->
  exists i r,
    best_idx required rows = Some i /\ nth_error rows i = Some r /\
    forall j r', nth_error rows j = Some r' ->
      Qmax (oversizing_mwh r) 0 <= Qmax (oversizing_mwh r') 0 /\
      ((j < i)%nat -> Qmax (oversizing_mwh r) 0 < Qmax (oversizing_mwh r') 0).
Proof.
  intros Hrows Hreq. unfold best_idx.
  apply positive_test in Hreq. rewrite Hreq.
  destruct (idxmin_first_min (clip_lower0 (map oversizing_mwh rows)))
    as (i & v & Ei & Hv & Hmin).
  { destruct rows; [congruence|discriminate]. }
  rewrite clipped_nth in Hv.
  destruct (nth_error rows i) as [r|] eqn:Er; [|discriminate Hv].
  simpl in Hv. injection Hv as Hv.
  exists i, r. split; [exact Ei|]. split; [exact Er|].
  intros j r' Hj.
  specialize (Hmin j (if Qltb (oversizing_mwh r') 0 then 0 else oversizing_mwh r')).
  rewrite clipped_nth, Hj in Hmin. specialize (Hmin eq_refl).
  rewrite <- Hv in Hmin. rewrite !clip_is_max in Hmin. exact Hmin.
Qed.

(** C4: on a table that has rows, a row is selected exactly when the
    requirement is positive and nothing is selected otherwise; the selected
    row has the smallest oversizing clamped at 0, and every row before it
    has a strictly larger one. *)
Theorem best_fit_selection (required : Q) (rows : list Row) :
  rows <> [] ->
  ((exists i, best_idx required rows = Some i) <-> 0 < required) /\
  (best_idx required rows = None <-> required <= 0) /\
  (forall i, best_idx required rows = Some i ->
     exists r, nth_error rows i = Some r /\
       forall j r', nth_error rows j = Some r' ->
         Qmax (oversizing_mwh r) 0 <= Qmax (oversizing_mwh r') 0 /\
         ((j < i)%nat ->
            Qmax (oversizing_mwh r) 0 < Qmax (oversizing_mwh r') 0)).
Proof.
  intro Hrows.
  assert (Hnone : required <= 0 -> best_idx required rows = None).
  { intro H. unfold best_idx. apply positive_test_false in H.
    rewrite H. reflexivity. }
  assert (Hsome : forall i, best_idx required rows = Some i -> 0 < required).
  { intros i Hi. apply Qnot_le_lt. intro H. rewrite (Hnone H) in Hi.
    discriminate Hi. }
  split; [|split].
  - split.
    + intros [i Hi]. exact (Hsome i Hi).
    + intro H. destruct (best_idx_first_min required rows Hrows H)
        as (i & _ & Hi & _). exists i. exact Hi.
  - split; [|exact Hnone].
    intro H. apply Qnot_lt_le. intro Hpos.
    destruct (best_idx_first_min required rows Hrows Hpos) as (i & _ & Hi & _).
    congruence.
  - intros i Hi.
    destruct (best_idx_first_min required rows Hrows (Hsome i Hi))
      as (i' & r & Hi' & Hr & Hmin).
    assert (i' = i) by congruence. subst i'.
    exists r. split; assumption.
Qed.

Lemma best_fit_selection_witness :
  default_table <> [] /\
  ((exists i, best_idx 9.9267 default_table = Some i) <-> 0 < 9.9267).
Proof.
  assert (H : default_table <> []) by (vm_compute; discriminate).
  split; [exact H|].
  exact (proj1 (best_fit_selection 9.9267 default_table H)).
Defined.

(** ** The whole table *)

(** For inputs in the ranges of the chain the script computes its capacity
    values, its three rows and, when the requirement is positive, a
    suggestion that points into the table. *)
Lemma configuration_defined (i : Inputs) :
  chain_ranges i ->
  exists cap rows best,
    configuration i = Some (cap, rows, best) /\
    List.length rows = 3%nat /\
    (0 < required_bess_mwh cap ->
       exists k, best = Some k /\ (k < List.length rows)%nat) /\
    (required_bess_mwh cap <= 0 -> best = None).
Proof.
  intro Hi.
  destruct (capacity_chain_monotone i Hi) as (cap & Ecap & _).
  destruct (catalog_rows_all (fun _ => True) (required_bess_mwh cap)
              (required_discharge_power_mw cap) (customer_c_rate cap))
    as (rows & Erows & Hlen & _); [trivial|].
  exists cap, rows, (best_idx (required_bess_mwh cap) rows).
  unfold configuration. rewrite Ecap. cbn [bind]. rewrite Erows. cbn [bind].
  split; [reflexivity|]. split; [exact Hlen|].
  assert (Hne : rows <> []) by (destruct rows; [discriminate Hlen|discriminate]).
  split.
  - intro Hreq.
    destruct (best_idx_first_min _ rows Hne Hreq) as (k & r & Ek & Hr & _).
    exists k. split; [exact Ek|]. apply nth_error_Some. rewrite Hr. discriminate.
  - intro Hreq. unfold best_idx. apply positive_test_false in Hreq.
    rewrite Hreq. reflexivity.
Qed.

(** The starting values of the widgets: 39, 3 and 2 units, and the third
    model is the suggestion. *)
Example configuration_default :
  exists cap rows,
    configuration default_inputs = Some (cap, rows, Some 2%nat) /\
    initial_mwh cap == 7.92 /\ after_dod_mwh cap == 8.8 /\
    required_bess_mwh cap == 9.9267 /\
    map number_of_units rows = [39; 3; 2]%Z.
Proof.
  eexists. eexists. split; [vm_compute; reflexivity|].
  split; [reflexivity|]. split; [reflexivity|]. split; reflexivity.
Qed.

(** ** Electrical summary *)

Lemma sqrt3_pos : (0 < sqrt 3)%R.
Proof.
  apply sqrt_lt_R0. lra.
Qed.

(** Under the guard of the script the divisor of the line current is
    positive. *)
Lemma current_divisor_pos (voltage pf : R) :
  (0 < voltage)%R -> (0 < pf)%R -> (0 < sqrt 3 * voltage * 1000 * pf)%R.
Proof.
  intros Hv Hp. pose proof sqrt3_pos as Hs.
  apply Rmult_lt_0_compat; [|exact Hp].
  apply Rmult_lt_0_compat; [|lra].
  apply Rmult_lt_0_compat; assumption.
Qed.

(** C8: with a positive voltage and a positive power factor the line
    current is power times 1e6 over sqrt(3) * voltage * 1000 * power factor,
    a division by a non-zero number; otherwise it is 0; and the breaker
    rating is always the line current times 1.25. *)
Theorem electrical_deriver (power voltage pf : R) :
  ((0 < voltage)%R -> (0 < pf)%R ->
     (sqrt 3 * voltage * 1000 * pf <> 0)%R /\
     current_amps power voltage pf
       = (power * 1000000 / (sqrt 3 * voltage * 1000 * pf))%R) /\
  (~ ((0 < voltage)%R /\ (0 < pf)%R) -> current_amps power voltage pf = 0%R) /\
  breaker_amps power voltage pf = (current_amps power voltage pf * 1.25)%R.
Proof.
  split; [|split].
  - intros Hv Hp. split.
    + apply Rgt_not_eq, Rlt_gt, current_divisor_pos; assumption.
    + unfold current_amps.
      destruct (Rlt_dec 0 voltage) as [_|Hn]; [|contradiction].
      destruct (Rlt_dec 0 pf) as [_|Hn]; [reflexivity|contradiction].
  - intro Hn. unfold current_amps.
    destruct (Rlt_dec 0 voltage) as [Hv|_]; [|reflexivity].
    destruct (Rlt_dec 0 pf) as [Hp|_]; [|reflexivity].
    exfalso. apply Hn. split; assumption.
  - reflexivity.
Qed.

Lemma electrical_deriver_witness :
  current_amps 0.99 0.4 0.85
    = (0.99 * 1000000 / (sqrt 3 * 0.4 * 1000 * 0.85))%R /\
  current_amps 0.99 0 0.85 = 0%R.
Proof.
  destruct (electrical_deriver 0.99 0.4 0.85) as (Hpos & _).
  destruct (electrical_deriver 0.99 0 0.85) as (_ & Hzero & _).
  split.
  - apply Hpos; lra.
  - apply Hzero. intros [H _]. lra.
Defined.

(** For inputs in the ranges of the widgets the guard holds, so the summary
    carries the quotient. *)
Lemma electrical_summary_in_range (i : Inputs) :
  widget_ranges i ->
  electrical_summary i
  = ((Q2R (load_mw i) * 1000000
      / (sqrt 3 * Q2R (voltage_kv i) * 1000 * Q2R (power_factor i)))%R,
     (Q2R (load_mw i) * 1000000
      / (sqrt 3 * Q2R (voltage_kv i) * 1000 * Q2R (power_factor i)) * 1.25)%R).
Proof.
  intros (_ & _ & _ & _ & _ & _ & _ & _ & Hv & Hp & _).
  apply Qle_Rle in Hv, Hp.
  unfold electrical_summary, breaker_amps, current_amps.
  destruct (Rlt_dec 0 (Q2R (voltage_kv i))) as [_|Hn]; [|exfalso; lra].
  destruct (Rlt_dec 0 (Q2R (power_factor i))) as [_|Hn]; [|exfalso; lra].
  reflexivity.
Qed.

(** * Further properties of the script *)

(** ** Ceilings *)

Lemma Qceiling_bounds (x : Q) :
  inject_Z (Qceiling x) - 1 < x /\ x <= inject_Z (Qceiling x).
Proof.
  pose proof (Qle_ceiling x) as Hc.
  pose proof (Qceiling_lt x) as Hl.
  unfold Z.sub in Hl. rewrite inject_Z_plus, inject_Z_opp in Hl.
  change (inject_Z 1) with 1 in Hl. split; lra.
Qed.

(** ** Cable remark *)

(** X1: the remark is ["No current"] exactly for a current that is zero or
    negative. *)
Theorem cable_no_current_iff (c : Q) :
  cable_runs_300mm c = "No current"%string <-> c <= 0.
Proof.
  unfold cable_runs_300mm. split.
  - destruct (Qle_bool c 0) eqn:E; [intros _; apply Qle_bool_iff, E|].
    destruct (Qceiling (c / limit_per_run) =? 1)%Z; simpl; discriminate.
  - intro H. apply Qle_bool_iff in H. rewrite H. reflexivity.
Qed.

(** ** Capacity chain: values and the case of no energy *)

Lemma pydiv_none_iff (a b : Q) : pydiv a b = None <-> b == 0.
Proof.
  unfold pydiv. destruct (Qeq_bool b 0) eqn:E.
  - apply Qeq_bool_iff in E. tauto.
  - split; [discriminate|]. intro H. apply Qeq_bool_iff in H. congruence.
Qed.

(** What the chain returns, when it returns. *)
Lemma capacity_chain_fields (i : Inputs) (cap : Capacity) :
  capacity_chain i = Some cap ->
  initial_mwh cap = load_mw i * discharge_h i /\
  after_dod_mwh cap
    = round_up_to_4_dec (initial_mwh cap / (dod_percent i / 100)) /\
  after_rte_mwh cap
    = round_up_to_4_dec (after_dod_mwh cap / (rte_percent i / 100)) /\
  after_other_eff_mwh cap
    = round_up_to_4_dec (after_rte_mwh cap / (other_eff_percent i / 100)) /\
  required_bess_mwh cap = after_other_eff_mwh cap /\
  required_discharge_power_mw cap = load_mw i /\
  customer_c_rate cap = c_rate i.
Proof.
  unfold capacity_chain, pydiv.
  destruct (Qeq_bool (dod_percent i / 100) 0); [discriminate|]. cbn [bind].
  destruct (Qeq_bool (rte_percent i / 100) 0); [discriminate|]. cbn [bind].
  destruct (Qeq_bool (other_eff_percent i / 100) 0); [discriminate|]. cbn [bind].
  intro H. injection H as <-. cbn.
  repeat (split; [reflexivity|]). reflexivity.
Qed.

Lemma div_le_compat (a b d : Q) : 0 < d -> a <= b -> a / d <= b / d.
Proof.
  intros Hd Hab. apply Qle_shift_div_l; [exact Hd|].
  setoid_replace (a / d * d) with a; [exact Hab|].
  field. intro H. rewrite H in Hd. discriminate Hd.
Qed.

Lemma round_up_zero (x : Q) : x == 0 -> round_up_to_4_dec x == 0.
Proof.
  intro H. rewrite H. reflexivity.
Qed.

Lemma zero_stage (a p : Q) :
  0 < p -> a == 0 -> round_up_to_4_dec (a / (p / 100)) == 0.
Proof.
  intros _ Ha. apply round_up_zero. rewrite Ha.
  unfold Qdiv. apply Qmult_0_l.
Qed.

(** X8: with no energy to deliver (a load or a duration of 0) the
    requirement is 0, every row has 0 units, 0 installed capacity and 0
    oversizing, and no model is suggested. *)
Theorem zero_energy_empty_table (i : Inputs) :
  chain_ranges i ->
  load_mw i * discharge_h i == 0 ->
  exists cap rows,
    configuration i = Some (cap, rows, None) /\
    required_bess_mwh cap == 0 /\
    List.length rows = 3%nat /\
    Forall (fun row =>
      number_of_units row = 0%Z /\
      total_installed_mwh row == 0 /\
      oversizing_mwh row == 0 /\
      oversizing_pct row == 0) rows.
Proof.
  intros Hi He.
  destruct (capacity_chain_monotone i Hi) as (cap & E & _).
  destruct (capacity_chain_fields i cap E) as (H0 & H1 & H2 & H3 & Hr & _).
  destruct Hi as (_ & _ & (Pd & _) & (Pr & _) & (Po & _)).
  assert (Hz : required_bess_mwh cap == 0).
  { rewrite Hr, H3. apply zero_stage; [exact Po|].
    rewrite H2. apply zero_stage; [exact Pr|].
    rewrite H1. apply zero_stage; [exact Pd|].
    rewrite H0. exact He. }
  assert (Hle : required_bess_mwh cap <= 0) by (rewrite Hz; apply Qle_refl).
  destruct (catalog_rows_all
              (fun row =>
                 number_of_units row = 0%Z /\
                 total_installed_mwh row == 0 /\
                 oversizing_mwh row == 0 /\
                 oversizing_pct row == 0)
              (required_bess_mwh cap) (required_discharge_power_mw cap)
              (customer_c_rate cap)) as (rows & Erows & Hlen & Hall).
  - intros m row Hm Hrow.
    destruct (row_sizing _ _ _ m row Hm Hrow) as (Ht & _ & Hu).
    destruct (row_oversizing _ _ _ m row Hm Hrow) as (_ & Hov).
    specialize (Hu Hle). destruct (Hov Hle) as [Ho Hp].
    split; [exact Hu|]. split; [|split].
    + rewrite Ht, Hu. change (inject_Z 0) with 0. field.
    + rewrite Ho, Hz. reflexivity.
    + exact Hp.
  - exists cap, rows. split; [|split; [exact Hz|split; assumption]].
    unfold configuration. rewrite E. cbn [bind]. rewrite Erows. cbn [bind].
    unfold best_idx. apply positive_test_false in Hle. rewrite Hle.
    reflexivity.
Qed.

Lemma zero_energy_empty_table_witness :
  exists cap rows,
    configuration
      {| load_mw := 0; discharge_h := 8; dod_percent := 90;
         rte_percent := 88.65; other_eff_percent := 100; c_rate := 0.25;
         grid_charging_mw := 0.5; other_charging_mw := 1;
         voltage_kv := 0.4; power_factor := 0.85 |}
    = Some (cap, rows, None) /\
    required_bess_mwh cap == 0.
Proof.
  destruct (zero_energy_empty_table
              {| load_mw := 0; discharge_h := 8; dod_percent := 90;
                 rte_percent := 88.65; other_eff_percent := 100; c_rate := 0.25;
                 grid_charging_mw := 0.5; other_charging_mw := 1;
                 voltage_kv := 0.4; power_factor := 0.85 |})
    as (cap & rows & E & Hz & _).
  - unfold chain_ranges; simpl.
    repeat split; solve [discriminate | reflexivity].
  - reflexivity.
  - exists cap, rows. split; [exact E|exact Hz].
Defined.

(** ** PCS quantity and unit count over the table *)

(** The count of one model for two requirements. *)
Lemma units_for_monotone (r1 r2 cap_kwh : Q) :
  0 < cap_kwh -> r1 <= r2 ->
  exists u1 u2,
    units_for r1 cap_kwh = Some u1 /\ units_for r2 cap_kwh = Some u2 /\
    (u1 <= u2)%Z /\ (0 < r1 -> (1 <= u1)%Z).
Proof.
  intros Hcap Hle.
  rewrite (units_for_defined r1 _ Hcap), (units_for_defined r2 _ Hcap).
  eexists. eexists. split; [reflexivity|]. split; [reflexivity|].
  assert (Hone : forall r, 0 < r -> (1 <= Qceiling (r * 1000 / cap_kwh))%Z).
  { intros r Hr.
    destruct (Qceiling_bounds (r * 1000 / cap_kwh)) as [_ Hhi].
    assert (Hq : 0 < r * 1000 / cap_kwh)
      by (apply Qlt_shift_div_l; [exact Hcap|lra]).
    assert (H : inject_Z 0 < inject_Z (Qceiling (r * 1000 / cap_kwh))).
    { change (inject_Z 0) with 0. lra. }
    rewrite <- Zlt_Qlt in H. lia. }
  split.
  - destruct (Qltb 0 r1) eqn:E1.
    + apply Qltb_lt in E1.
      assert (E2 : 0 < r2) by (apply Qlt_le_trans with r1; assumption).
      apply Qltb_lt in E2. rewrite E2.
      apply Qceiling_resp_le, div_le_compat; [exact Hcap|lra].
    + destruct (Qltb 0 r2) eqn:E2; [|lia].
      apply Qltb_lt in E2. specialize (Hone r2 E2). lia.
  - intro Hr. apply Qltb_lt in Hr as Hb. rewrite Hb. apply Hone, Hr.
Qed.

(** X10: a positive requirement puts at least one unit in every row, and a
    larger requirement never lowers the unit count of a model. *)
Theorem unit_count_monotone (r1 r2 power crate : Q) :
  r1 <= r2 ->
  exists rows1 rows2,
    compute_rows r1 power crate battery_models = Some rows1 /\
    compute_rows r2 power crate battery_models = Some rows2 /\
    Forall2 (fun row1 row2 =>
      battery_model row1 = battery_model row2 /\
      (number_of_units row1 <= number_of_units row2)%Z /\
      (0 < r1 -> (1 <= number_of_units row1)%Z)) rows1 rows2.
Proof.
  intro Hle. pose proof battery_models_positive as Hpos.
  induction Hpos as [|m rest Hm _ IH].
  - exists [], []. split; [reflexivity|]. split; [reflexivity|constructor].
  - destruct IH as (rows1 & rows2 & E1 & E2 & Hall).
    destruct (units_for_monotone r1 r2 _ Hm Hle) as (u1 & u2 & U1 & U2 & Hu & Hone).
    simpl. unfold compute_row. rewrite U1, U2. cbn [bind]. rewrite E1, E2.
    cbn [bind]. eexists. eexists. split; [reflexivity|]. split; [reflexivity|].
    constructor; [|exact Hall]. cbn.
    split; [reflexivity|]. split; assumption.
Qed.

Lemma unit_count_monotone_witness :
  exists rows1 rows2,
    compute_rows 5 0.99 0.25 battery_models = Some rows1 /\
    compute_rows 9.9267 0.99 0.25 battery_models = Some rows2 /\
    Forall2 (fun row1 row2 =>
      battery_model row1 = battery_model row2 /\
      (number_of_units row1 <= number_of_units row2)%Z /\
      (0 < 5 -> (1 <= number_of_units row1)%Z)) rows1 rows2.
Proof.
  apply (unit_count_monotone 5 9.9267 0.99 0.25). discriminate.
Defined.

(** ** The two lookups compared *)

Lemma Qle_bool_false (a b : Q) : Qle_bool a b = false <-> b < a.
Proof.
  rewrite <- Qltb_lt. unfold Qltb. rewrite negb_true_iff. reflexivity.
Qed.

Ltac lookup_cases x :=
  cbn [find];
  repeat match goal with
         | |- context [Qle_bool x ?c] =>
             let E := fresh "E" in destruct (Qle_bool x c) eqn:E
         end;
  repeat match goal with
         | H : Qle_bool _ _ = true |- _ => apply Qle_bool_iff in H
         | H : Qle_bool _ _ = false |- _ => apply Qle_bool_false in H
         end.

Lemma pcs_sizes_at_most (s : Q) : In s pcs_sizes -> s <= 5.
Proof.
  unfold pcs_sizes. simpl.
  intros [<-|[<-|[<-|[<-|[<-|[<-|[]]]]]]]; discriminate.
Qed.

Lemma select_pcs_rating_in (z : Q) : In (select_pcs_rating z) pcs_sizes.
Proof.
  rewrite select_pcs_rating_lookup. apply ceiling_lookup_in. discriminate.
Qed.

Lemma select_pcs_rating_least (z : Q) :
  z <= 5 ->
  z <= select_pcs_rating z /\
  forall s, In s pcs_sizes -> z <= s -> select_pcs_rating z <= s.
Proof.
  intro Hz. rewrite select_pcs_rating_lookup.
  apply (ceiling_lookup_least pcs_sizes pcs_sizes_sorted).
  exists 5.0. split; [simpl; tauto|]. lra.
Qed.

Lemma select_pcs_rating_clamped (z : Q) : 5 < z -> select_pcs_rating z == 5.
Proof.
  intro Hz. rewrite select_pcs_rating_lookup.
  rewrite (ceiling_lookup_clamped pcs_sizes z); [reflexivity|].
  intros s Hs Hle. apply pcs_sizes_at_most in Hs. lra.
Qed.

(** X11: the PCS rating covers the container power exactly when that power
    is at most 5 MW (above, the lookup is clamped to 5.0), and a larger
    power never gets a smaller rating. *)
Theorem select_pcs_rating_covers_iff (x y : Q) :
  (x <= select_pcs_rating x <-> x <= 5) /\
  (5 < x -> select_pcs_rating x == 5) /\
  (x <= y -> select_pcs_rating x <= select_pcs_rating y).
Proof.
  split; [|split].
  - split.
    + intro H. pose proof (pcs_sizes_at_most _ (select_pcs_rating_in x)). lra.
    + intro H. exact (proj1 (select_pcs_rating_least x H)).
  - apply select_pcs_rating_clamped.
  - intro Hxy. destruct (Qlt_le_dec 5 y) as [Hy|Hy].
    + rewrite (select_pcs_rating_clamped y Hy).
      apply pcs_sizes_at_most, select_pcs_rating_in.
    + assert (Hx : x <= 5) by lra.
      destruct (select_pcs_rating_least y Hy) as [Hy1 _].
      destruct (select_pcs_rating_least x Hx) as [_ Hleast].
      apply Hleast; [apply select_pcs_rating_in|lra].
Qed.

Lemma select_pcs_rating_covers_iff_witness :
  1.3 <= select_pcs_rating 1.3 /\
  select_pcs_rating 5.0159 == 5 /\
  select_pcs_rating 1.3 <= select_pcs_rating 5.0159.
Proof.
  destruct (select_pcs_rating_covers_iff 1.3 5.0159) as (Hc & _ & Hm).
  destruct (select_pcs_rating_covers_iff 5.0159 0) as (_ & Hclamp & _).
  split; [apply Hc; discriminate|].
  split; [apply Hclamp; reflexivity|apply Hm; discriminate].
Defined.

(** X12: the transformer candidate and the PCS rating are the same number
    except for a container power above 2.5 and up to 3.5 MW, where the
    transformer list has 3.5 and the PCS list goes on to 5.0; the
    transformer candidate is never above the PCS rating. *)
Theorem transformer_matches_pcs (x : Q) :
  (x <= 2.5 \/ 3.5 < x ->
     ceiling_lookup candidates x == select_pcs_rating x /\
     select_transformer_mva x = mva_label (select_pcs_rating x)) /\
  (2.5 < x /\ x <= 3.5 ->
     select_transformer_mva x = "3.50MVAMVA"%string /\
     select_pcs_rating x = 5.0) /\
  ceiling_lookup candidates x <= select_pcs_rating x.
Proof.
  rewrite select_transformer_mva_lookup.
  unfold select_pcs_rating, ceiling_lookup, candidates, pcs_sizes.
  split; [|split].
  - intros [H|H]; lookup_cases x;
      solve [split; reflexivity | exfalso; lra].
  - intros [H1 H2]; lookup_cases x;
      solve [split; reflexivity | exfalso; lra].
  - lookup_cases x; solve [discriminate | exfalso; lra].
Qed.

Lemma transformer_matches_pcs_witness :
  (ceiling_lookup candidates 1.6 == select_pcs_rating 1.6 /\
   select_transformer_mva 1.6 = mva_label (select_pcs_rating 1.6)) /\
  (select_transformer_mva 3 = "3.50MVAMVA"%string /\
   select_pcs_rating 3 = 5.0).
Proof.
  destruct (transformer_matches_pcs 1.6) as (Hsame & _).
  destruct (transformer_matches_pcs 3) as (_ & Hgap & _).
  split; [apply Hsame; left; discriminate|].
  apply Hgap. split; [reflexivity|discriminate].
Defined.

(** X13: for every container power the label is the two-decimal text of a
    candidate followed by ["MVAMVA"]; that candidate is the least one that
    is [>=] the power when the power is at most 5, and 5.0 above. *)
Theorem transformer_label_of_least_candidate (x : Q) :
  exists c,
    In c candidates /\
    select_transformer_mva x = (format_2f c ++ "MVAMVA")%string /\
    (x <= 5 ->
       x <= c /\ forall c', In c' candidates -> x <= c' -> c <= c') /\
    (5 < x -> c = 5.0).
Proof.
  exists (ceiling_lookup candidates x).
  destruct (transformer_candidate_least x) as (Hin & Hleast & Hclamp).
  split; [exact Hin|]. split; [apply select_transformer_mva_shape|]. split.
  - intro Hx. apply Hleast. exists 5.0. split; [simpl; tauto|]. lra.
  - intro Hx. apply Hclamp. intros c Hc Hle.
    assert (c <= 5); [|lra].
    revert Hc. unfold candidates. simpl.
    intros [<-|[<-|[<-|[<-|[<-|[<-|[<-|[]]]]]]]]; discriminate.
Qed.

(** ** The suggested configuration *)

Lemma suggestion_in_table_aux (rows : list Row) (k : nat) (r : Row) :
  nth_error rows k = Some r ->
  (k < List.length rows)%nat /\ best_row rows (Some k) = Some r.
Proof.
  intro Hr.
  assert (Hlt : (k < List.length rows)%nat)
    by (apply nth_error_Some; rewrite Hr; discriminate).
  split; [exact Hlt|].
  unfold best_row. apply Nat.ltb_lt in Hlt. rewrite Hlt. exact Hr.
Qed.

(** X14: whenever a best index is set it points into the table, so the test
    [0 <= best_idx < len(df_bess)] of the display succeeds and the suggested
    row is the row at that index; this happens only for a positive
    requirement. *)
Theorem suggestion_in_table (required : Q) (rows : list Row) (k : nat) :
  best_idx required rows = Some k ->
  0 < required /\
  (k < List.length rows)%nat /\
  exists r, best_row rows (Some k) = Some r /\ nth_error rows k = Some r.
Proof.
  intro Hk.
  assert (Hne : rows <> []).
  { intro H. subst rows. unfold best_idx in Hk.
    destruct (truthy required && Qltb 0 required); discriminate Hk. }
  assert (Hreq : 0 < required).
  { apply Qnot_le_lt. intro H. apply positive_test_false in H.
    unfold best_idx in Hk. rewrite H in Hk. discriminate Hk. }
  destruct (best_idx_first_min required rows Hne Hreq) as (k' & r & Ek & Hr & _).
  assert (k' = k) by congruence. subst k'.
  destruct (suggestion_in_table_aux rows k r Hr) as [Hlt Hb].
  split; [exact Hreq|]. split; [exact Hlt|].
  exists r. split; [exact Hb|exact Hr].
Qed.

Lemma suggestion_in_table_witness :
  0 < 9.9267 /\
  (2 < List.length default_table)%nat /\
  exists r, best_row default_table (Some 2%nat) = Some r /\
            nth_error default_table 2 = Some r.
Proof.
  apply (suggestion_in_table 9.9267 default_table 2). reflexivity.
Defined.

(** ** The loop over the models: failure and shape *)

Lemma units_for_none_iff (required cap_kwh : Q) :
  units_for required cap_kwh = None <-> 0 < required /\ cap_kwh == 0.
Proof.
  unfold units_for. destruct (Qltb 0 required) eqn:E.
  - apply Qltb_lt in E.
    destruct (pydiv (required * 1000) cap_kwh) as [q|] eqn:Ed; cbn [bind].
    + split; [discriminate|]. intros [_ H].
      apply (pydiv_none_iff (required * 1000)) in H. congruence.
    + apply pydiv_none_iff in Ed. tauto.
  - apply Qltb_ge in E. split; [discriminate|].
    intros [H _]. exfalso. exact (Qlt_not_le _ _ H E).
Qed.

Lemma compute_row_none_iff (required power crate : Q) (m : BatteryModel) :
  compute_row required power crate m = None
  <-> 0 < required /\ capacity_kwh m == 0.
Proof.
  rewrite <- units_for_none_iff. unfold compute_row.
  destruct (units_for required (capacity_kwh m)); cbn [bind].
  - split; discriminate.
  - tauto.
Qed.

(** X19: the loop over the models fails, with a division by zero, exactly
    when the requirement is positive and some model has a capacity of 0;
    otherwise it returns a table. *)
Theorem compute_rows_fails_iff (required power crate : Q)
        (models : list BatteryModel) :
  compute_rows required power crate models = None
  <-> 0 < required /\ Exists (fun m => capacity_kwh m == 0) models.
Proof.
  induction models as [|m rest IH]; simpl.
  - split; [discriminate|]. intros [_ H]. inversion H.
  - destruct (compute_row required power crate m) as [row|] eqn:E; cbn [bind].
    + assert (Hm : ~ (0 < required /\ capacity_kwh m == 0)).
      { intro H. apply compute_row_none_iff with (power := power) (crate := crate) in H.
        congruence. }
      destruct (compute_rows required power crate rest) as [rows|]; cbn [bind].
      * split; [discriminate|]. intros [Hr H].
        apply Exists_cons in H. destruct H as [H|H]; [tauto|].
        destruct IH as [_ IH]. discriminate IH. split; assumption.
      * destruct IH as [IH _]. destruct (IH eq_refl) as [Hr H].
        split; [intros _|reflexivity]. split; [exact Hr|].
        apply Exists_cons_tl, H.
    + apply compute_row_none_iff in E. destruct E as [Hr Hc].
      split; [intros _|reflexivity]. split; [exact Hr|].
      apply Exists_cons_hd, Hc.
Qed.

(** X20: a table the loop returns has one row per model, in the order of
    the models, each with the name and the capacity of its model and with
    the C-rate that was given. *)
Theorem table_follows_models (required power crate : Q)
        (models : list BatteryModel) (rows : list Row) :
  compute_rows required power crate models = Some rows ->
  List.length rows = List.length models /\
  map battery_model rows = map name models /\
  map unit_capacity_kwh rows = map capacity_kwh models /\
  Forall (fun row => container_c_rate row = crate) rows.
Proof.
  revert rows. induction models as [|m rest IH]; simpl; intros rows H.
  - injection H as <-. repeat split; constructor.
  - unfold compute_row in H.
    destruct (units_for required (capacity_kwh m)) as [u|]; [|discriminate H].
    cbn [bind] in H.
    destruct (compute_rows required power crate rest) as [rs|]; [|discriminate H].
    cbn [bind] in H. injection H as <-.
    destruct (IH rs eq_refl) as (Hl & Hn & Hc & Hr). simpl.
    split; [rewrite Hl; reflexivity|].
    split; [rewrite Hn; reflexivity|].
    split; [rewrite Hc; reflexivity|].
    constructor; [reflexivity|exact Hr].
Qed.

Lemma table_follows_models_witness :
  exists rows,
    compute_rows 9.9267 0.99 0.25 battery_models = Some rows /\
    map battery_model rows = map name battery_models.
Proof.
  destruct (compute_rows 9.9267 0.99 0.25 battery_models) as [rows|] eqn:E.
  - exists rows. split; [reflexivity|].
    exact (proj1 (proj2 (table_follows_models _ _ _ _ rows E))).
  - vm_compute in E. discriminate E.
Defined.

(** ** PCS rating against container power, over the catalog *)

Lemma lookups_smallest (x : Q) :
  x <= 1.25 ->
  select_pcs_rating x = 1.25 /\
  select_transformer_mva x = "1.25MVAMVA"%string.
Proof.
  intro H. apply Qle_bool_iff in H.
  unfold select_pcs_rating, select_transformer_mva, pcs_sizes, candidates.
  cbn [find]. rewrite H. split; reflexivity.
Qed.

(** X21: for a C-rate of at most 1 the 261 kWh model always gets the 1.25 MW
    PCS and the 1.25 label, the rating of the 3727.36 kWh model covers its
    container power, and the rating of the 5015.9 kWh model covers its
    container power exactly when C-rate * 5015.9 is at most 5000: above
    that the clamped rating of 5.0 is below the container power. *)
Theorem catalog_rating_against_container_power (required power crate : Q) :
  crate <= 1 ->
  exists r1 r2 r3,
    compute_rows required power crate battery_models = Some [r1; r2; r3] /\
    pcs_rating_mw r1 = 1.25 /\
    transformer_per_unit r1 = "1.25MVAMVA"%string /\
    crate * 3727.36 / 1000 <= pcs_rating_mw r2 /\
    (crate * 5015.9 / 1000 <= pcs_rating_mw r3 <-> crate * 5015.9 <= 5000).
Proof.
  intro Hc. unfold battery_models. cbn [compute_rows]. unfold compute_row.
  cbn [capacity_kwh name].
  rewrite !units_for_defined by reflexivity. cbn [bind].
  eexists. eexists. eexists. split; [reflexivity|].
  cbn [pcs_rating_mw transformer_per_unit].
  assert (H1 : crate * 261.0 / 1000 <= 1.25).
  { apply Qle_shift_div_r; [reflexivity|]. lra. }
  destruct (lookups_smallest _ H1) as [Hp Ht].
  split; [exact Hp|]. split; [exact Ht|]. split.
  - apply select_pcs_rating_least. apply Qle_shift_div_r; [reflexivity|]. lra.
  - assert (Hq : crate * 5015.9 / 1000 == crate * 5015.9 * (1 # 1000)) by field.
    split.
    + intro H.
      pose proof (pcs_sizes_at_most _ (select_pcs_rating_in (crate * 5015.9 / 1000))).
      lra.
    + intro H. apply select_pcs_rating_least. lra.
Qed.

Lemma catalog_rating_against_container_power_witness :
  exists r1 r2 r3,
    compute_rows 9.9267 0.99 1 battery_models = Some [r1; r2; r3] /\
    pcs_rating_mw r1 = 1.25 /\
    transformer_per_unit r1 = "1.25MVAMVA"%string /\
    1 * 3727.36 / 1000 <= pcs_rating_mw r2 /\
    (1 * 5015.9 / 1000 <= pcs_rating_mw r3 <-> 1 * 5015.9 <= 5000).
Proof.
  apply (catalog_rating_against_container_power 9.9267 0.99 1). discriminate.
Defined.

(** * The script in binary64 *)

(** The starting values of the widgets give the figures of the exact
    reading: 7.92, 8.8 and 9.9267 MWh, and 39, 3 and 2 units. *)
Example binary64_default :
  exists cap rows,
    Binary64.configuration Binary64.default_inputs
    = Binary64.Value (cap, rows) /\
    Binary64.initial_mwh cap = Binary64.dec 792 2 /\
    Binary64.after_dod_mwh cap = Binary64.dec 88 1 /\
    Binary64.required_bess_mwh cap = Binary64.dec 99267 4 /\
    map Binary64.number_of_units rows = [39; 3; 2]%Z /\
    map Binary64.transformer_per_unit rows
    = ["1.25MVAMVA"; "1.25MVAMVA"; "1.50MVAMVA"]%string.
Proof.
  eexists. eexists. split; [vm_compute; reflexivity|].
  repeat split; vm_compute; reflexivity.
Qed.

(** ** The rounding helper *)

(** C2: in binary64 the helper does not reproduce [ROUNDUP(x, 4)].  It sends
    the double 0.0753, a value it returns itself, to 0.0754, where
    [ROUNDUP] keeps 0.0753: with a load of 0.01 MW for 6 h and the starting
    percentages the stage at 100 % moves 0.0753 MWh to 0.0754 MWh.  And it
    sends -0.00015 to -0.0001, toward zero, where [ROUNDUP] gives
    -0.0002. *)
Theorem round_up_to_4_dec_binary64_not_roundup :
  Binary64.round_up_to_4_dec (Binary64.dec 753 4)
  = Binary64.Value (Binary64.dec 754 4) /\
  spreadsheet_roundup4 0.0753 == 0.0753 /\
  (exists cap,
     Binary64.capacity_chain
       (Binary64.site (Binary64.dec 1 2) (Binary64.dec 6 0))
     = Binary64.Value cap /\
     Binary64.after_rte_mwh cap = Binary64.dec 753 4 /\
     Binary64.after_other_eff_mwh cap = Binary64.dec 754 4) /\
  Binary64.round_up_to_4_dec (Binary64.dec (-15) 5)
  = Binary64.Value (Binary64.dec (-1) 4) /\
  spreadsheet_roundup4 (-0.00015) == -0.0002.
Proof.
  split; [vm_compute; reflexivity|].
  split; [reflexivity|].
  split; [eexists; split; [vm_compute; reflexivity|];
          split; vm_compute; reflexivity|].
  split; [vm_compute; reflexivity|reflexivity].
Qed.

(** C7: in binary64 the helper returns a value below its argument: the
    product 0.05 * 8.5 is the double 0.42500000000000004 and the helper
    returns 0.425.  It also moves the double 1.0031 to 1.0032, though it
    keeps 0.5. *)
Theorem round_up_to_4_dec_binary64_below_input :
  Binary64.round_up_to_4_dec
    (Binary64.mul (Binary64.dec 5 2) (Binary64.dec 85 1))
  = Binary64.Value (Binary64.dec 425 3) /\
  Binary64.ltb (Binary64.dec 425 3)
    (Binary64.mul (Binary64.dec 5 2) (Binary64.dec 85 1)) = true /\
  Binary64.round_up_to_4_dec (Binary64.dec 10031 4)
  = Binary64.Value (Binary64.dec 10032 4) /\
  Binary64.round_up_to_4_dec (Binary64.dec 5 1)
  = Binary64.Value (Binary64.dec 5 1).
Proof.
  repeat split; vm_compute; reflexivity.
Qed.

(** ** The capacity chain *)

(** C5: with a load of 0.05 MW for 8.5 h, a depth of discharge of 100 % and
    the other starting values, the chain returns an [after_dod_mwh] of
    0.425 below its [initial_mwh] of 0.42500000000000004. *)
Theorem capacity_chain_binary64_not_monotone :
  exists cap,
    Binary64.capacity_chain
      {| Binary64.load_mw := Binary64.dec 5 2;
         Binary64.discharge_h := Binary64.dec 85 1;
         Binary64.dod_percent := Binary64.dec 100 0;
         Binary64.rte_percent := Binary64.dec 8865 2;
         Binary64.other_eff_percent := Binary64.dec 100 0;
         Binary64.c_rate := Binary64.dec 25 2 |}
    = Binary64.Value cap /\
    Binary64.initial_mwh cap
    = Binary64.mul (Binary64.dec 5 2) (Binary64.dec 85 1) /\
    Binary64.after_dod_mwh cap = Binary64.dec 425 3 /\
    Binary64.ltb (Binary64.after_dod_mwh cap) (Binary64.initial_mwh cap)
    = true.
Proof.
  eexists. split; [vm_compute; reflexivity|].
  repeat split; vm_compute; reflexivity.
Qed.

(** ** The table *)

(** C3: with a load of 457.11 MW for 4.5 h and the starting percentages the
    requirement is 2578.1726 MWh and the row of the 5015.9 kWh model has
    514 units whose installed capacity, 2578.1725999999994 MWh, is below
    the requirement.  With a load of 64.989 MW for 1 h and the three
    percentages at 100 the requirement is 64.989 MWh and the row of the
    261 kWh model has 250 units, although the installed capacity of 249
    units, computed by the same expression, covers the requirement. *)
Theorem catalog_binary64_undersized :
  (exists cap r1 r2 r3,
     Binary64.configuration
       (Binary64.site (Binary64.dec 45711 2) (Binary64.dec 45 1))
     = Binary64.Value (cap, [r1; r2; r3]) /\
     Binary64.required_bess_mwh cap = Binary64.dec 25781726 4 /\
     Binary64.ltb Binary64.zero (Binary64.required_bess_mwh cap) = true /\
     Binary64.unit_capacity_kwh r3 = Binary64.dec 50159 1 /\
     Binary64.number_of_units r3 = 514%Z /\
     Binary64.ltb (Binary64.total_installed_mwh r3)
                  (Binary64.required_bess_mwh cap) = true) /\
  (exists cap r1 r2 r3 total249,
     Binary64.configuration
       {| Binary64.load_mw := Binary64.dec 64989 3;
          Binary64.discharge_h := Binary64.dec 1 0;
          Binary64.dod_percent := Binary64.dec 100 0;
          Binary64.rte_percent := Binary64.dec 100 0;
          Binary64.other_eff_percent := Binary64.dec 100 0;
          Binary64.c_rate := Binary64.dec 25 2 |}
     = Binary64.Value (cap, [r1; r2; r3]) /\
     Binary64.required_bess_mwh cap = Binary64.dec 64989 3 /\
     Binary64.unit_capacity_kwh r1 = Binary64.dec 2610 1 /\
     Binary64.number_of_units r1 = 250%Z /\
     Binary64.bind (Binary64.float_of_int 249)
       (fun units_f =>
          Binary64.truediv
            (Binary64.mul units_f (Binary64.unit_capacity_kwh r1))
            Binary64.thousand)
     = Binary64.Value total249 /\
     Binary64.leb (Binary64.required_bess_mwh cap) total249 = true).
Proof.
  split.
  - eexists. eexists. eexists. eexists. split; [vm_compute; reflexivity|].
    repeat split; vm_compute; reflexivity.
  - eexists. eexists. eexists. eexists. eexists.
    split; [vm_compute; reflexivity|].
    split; [vm_compute; reflexivity|].
    split; [vm_compute; reflexivity|].
    split; [vm_compute; reflexivity|].
    split; vm_compute; reflexivity.
Qed.

(** C9: in the same table the oversizing of the 5015.9 kWh row is negative;
    and with a load of 2666.89 MW for 2.5 h the oversizing of that row,
    5.0159000000003 MWh, is not below one unit, 5.015899999999999 MWh. *)
Theorem catalog_binary64_oversizing_out_of_bounds :
  (exists cap r1 r2 r3,
     Binary64.configuration
       (Binary64.site (Binary64.dec 45711 2) (Binary64.dec 45 1))
     = Binary64.Value (cap, [r1; r2; r3]) /\
     Binary64.ltb Binary64.zero (Binary64.required_bess_mwh cap) = true /\
     Binary64.ltb (Binary64.oversizing_mwh r3) Binary64.zero = true) /\
  (exists cap r1 r2 r3,
     Binary64.configuration
       (Binary64.site (Binary64.dec 266689 2) (Binary64.dec 25 1))
     = Binary64.Value (cap, [r1; r2; r3]) /\
     Binary64.ltb Binary64.zero (Binary64.required_bess_mwh cap) = true /\
     Binary64.leb
       (Binary64.div (Binary64.unit_capacity_kwh r3) Binary64.thousand)
       (Binary64.oversizing_mwh r3) = true).
Proof.
  split.
  - eexists. eexists. eexists. eexists. split; [vm_compute; reflexivity|].
    split; vm_compute; reflexivity.
  - eexists. eexists. eexists. eexists. split; [vm_compute; reflexivity|].
    split; vm_compute; reflexivity.
Qed.
